(** * tools/anvil_set_erc20_balance.py: a shallow embedding

    The script finds, by brute force, the storage slot index of an ERC20
    token's balances mapping on a development node and overwrites the
    account's balance there.  This file embeds the script's functions in
    Rocq, function by function and under the names of the source, and proves
    properties of them.

    Conventions of the embedding.
    - Python [bytes] are [list byte]; Python [str] is [string], whose
      characters stand for the code points below 256; Python [int] is [Z].
    - A Python call that can raise returns a [result]: [Ok v] or [Raise e].
    - What the script calls and does not implement is a parameter of the
      definitions that use it: the Keccak-256 digest of the Crypto library,
      the JSON-RPC endpoint behind [urllib.request.urlopen], and Python's
      [int(x, 16)] and [str(x)] on the JSON values the endpoint returns.
      The theorems hold for every choice of these.
    - An exception that leaves [main] is kept as such, [Raise e]; the value
      [main] returns is [Ok c].
    - The interpreter is CPython with its limit on the decimal digits of an
      integer turned into text, 4300 digits as the interpreter sets it when
      nothing else is asked for (CPython 3.11 and later, and the releases
      of 3.7 to 3.10 that carry the limit); the script does not change
      it. *)

From Stdlib Require Import ZArith Lia Ascii String.
From Stdlib Require Strings.Byte.
From stdpp Require Import prelude strings gmap.

Local Open Scope string_scope.
Local Open Scope list_scope.
Local Open Scope Z_scope.

Abbreviation byte := Corelib.Init.Byte.byte.

(** ** Exceptions and results *)

(** The exception classes the script can meet.  All of them derive from
    Python's [Exception], so every [except Exception] clause of [main]
    catches each of them. *)
Inductive exn : Type :=
| ValueError (msg : string)
| OverflowError (msg : string)
| TypeError (msg : string)
| KeyError (key : string)
| RuntimeError (msg : string)
| OtherException (cls msg : string).

Inductive result (A : Type) : Type :=
| Ok (a : A)
| Raise (e : exn).

Arguments Ok {A} a.
Arguments Raise {A} e.

#[global] Instance exn_eq_dec : EqDecision exn.
Proof. solve_decision. Defined.

#[global] Instance result_eq_dec {A} `{EqDecision A} : EqDecision (result A).
Proof. solve_decision. Defined.

Definition rbind {A B} (r : result A) (k : A -> result B) : result B :=
  match r with
  | Ok a => k a
  | Raise e => Raise e
  end.

Notation "x <-? r ; k" := (rbind r (fun x => k))
  (at level 100, r at next level, right associativity,
   format "x  <-?  r ;  '/' k").

Definition is_ok {A} (r : result A) : bool :=
  match r with Ok _ => true | Raise _ => false end.

(** ** Bytes and hexadecimal text *)

Definition byte_of_Z (z : Z) : byte :=
  default Byte.x00 (Byte.of_N (Z.to_N (z mod 256))).

Definition Z_of_byte (b : byte) : Z := Z.of_N (Byte.to_N b).

(** [b.rjust(32, b"\x00")]: pads on the left up to 32 bytes and returns a
    longer [b] unchanged. *)
Definition zpad32 (b : list byte) : list byte :=
  replicate (32 - length b)%nat Byte.x00 ++ b.

(** The characters [str.strip()] removes, among the code points below 256. *)
Definition is_py_space (c : ascii) : bool :=
  let n := N_of_ascii c in
  ((9 <=? n) && (n <=? 13) || (28 <=? n) && (n <=? 32)
   || (n =? 133) || (n =? 160))%N.

(** The characters [bytes.fromhex] skips between two bytes. *)
Definition is_c_space (c : ascii) : bool :=
  let n := N_of_ascii c in
  ((9 <=? n) && (n <=? 13) || (n =? 32))%N.

Fixpoint lstrip (s : string) : string :=
  match s with
  | String c s' => if is_py_space c then lstrip s' else s
  | EmptyString => EmptyString
  end.

Fixpoint rstrip (s : string) : string :=
  match s with
  | String c s' =>
      match rstrip s' with
      | EmptyString => if is_py_space c then EmptyString else String c EmptyString
      | r => String c r
      end
  | EmptyString => EmptyString
  end.

(** [h.strip()] *)
Definition strip (s : string) : string := rstrip (lstrip s).

(** [h.startswith("0x")] *)
Definition startswith_0x (s : string) : bool :=
  match s with
  | String "0" (String "x" _) => true
  | _ => false
  end.

(** [h[2:]] *)
Definition drop2 (s : string) : string :=
  match s with
  | String _ (String _ r) => r
  | _ => EmptyString
  end.

(** Value of a hexadecimal digit, in either case. *)
Definition digit_value (c : ascii) : option Z :=
  let n := Z.of_N (N_of_ascii c) in
  if (48 <=? n) && (n <=? 57) then Some (n - 48)
  else if (97 <=? n) && (n <=? 102) then Some (n - 87)
  else if (65 <=? n) && (n <=? 70) then Some (n - 55)
  else None.

Definition fromhex_error : exn :=
  ValueError "non-hexadecimal number found in fromhex() arg".

(** [bytes.fromhex(h)]: two digits make a byte, white space is skipped
    before a byte and refused inside one, anything else raises. *)
Fixpoint fromhex (s : string) : result (list byte) :=
  match s with
  | EmptyString => Ok []
  | String c s' =>
      if is_c_space c then fromhex s'
      else
        match digit_value c, s' with
        | Some top, String d s'' =>
            match digit_value d with
            | Some bot =>
                bs <-? fromhex s'';
                Ok (byte_of_Z (16 * top + bot) :: bs)
            | None => Raise fromhex_error
            end
        | _, _ => Raise fromhex_error
        end
  end.

Definition hex_to_bytes (h : string) : result (list byte) :=
  let h := strip h in
  let h := if startswith_0x h then drop2 h else h in
  let h := if (Z.of_nat (String.length h) mod 2 =? 0) then h else "0" +:+ h in
  fromhex h.

(** The lower-case digit of a value below 16. *)
Definition hexdigit (n : Z) : ascii :=
  if n <? 10 then ascii_of_N (Z.to_N (48 + n))
  else ascii_of_N (Z.to_N (87 + n)).

(** [b.hex()] *)
Fixpoint hex (b : list byte) : string :=
  match b with
  | [] => EmptyString
  | x :: b' =>
      String (hexdigit (Z_of_byte x / 16))
        (String (hexdigit (Z_of_byte x mod 16)) (hex b'))
  end.

Definition bytes_to_hex (b : list byte) : string := "0x" +:+ hex b.

Definition addr_to_bytes32 (addr : string) : result (list byte) :=
  b <-? hex_to_bytes addr;
  if decide (length b = 20%nat) then Ok (zpad32 b)
  else Raise (ValueError "address must be 20 bytes").

(** The [n] low bytes of [v], most significant first. *)
Fixpoint be_bytes (n : nat) (v : Z) : list byte :=
  match n with
  | O => []
  | S n' => be_bytes n' (v / 256) ++ [byte_of_Z v]
  end.

(** [v.to_bytes(n, byteorder="big")], unsigned: raises on a negative [v] and
    on one that does not fit. *)
Definition to_bytes (n : nat) (v : Z) : result (list byte) :=
  if v <? 0 then Raise (OverflowError "can't convert negative int to unsigned")
  else if 2 ^ (8 * Z.of_nat n) <=? v then Raise (OverflowError "int too big to convert")
  else Ok (be_bytes n v).

(** [int.from_bytes(b, byteorder="big")], the inverse reading of a word. *)
Definition from_bytes (b : list byte) : Z :=
  fold_left (fun acc x => 256 * acc + Z_of_byte x) b 0.

Definition int_to_bytes32 (i : Z) : result (list byte) :=
  if i <? 0 then Raise (ValueError "slot index must be non-negative")
  else to_bytes 32 i.

Definition int_to_storage_word (v : Z) : result string :=
  if v <? 0 then Raise (ValueError "amount must be non-negative")
  else b <-? to_bytes 32 v; Ok ("0x" +:+ hex b).

(** ** Integers as decimal text *)

(** [sys.get_int_max_str_digits()]: the most decimal digits an integer may
    have when it is turned into text. *)
Definition int_max_str_digits : Z := 4300.

(** The ValueError of an integer with more digits than that. *)
Definition digits_error : exn :=
  ValueError "Exceeds the limit (4300 digits) for integer string conversion; use sys.set_int_max_str_digits() to increase the limit".

(** What an f-string does with an integer field [{v}] before anything is
    printed: [str(v)] raises when [v], sign apart, has more than
    [int_max_str_digits] digits.  [int(x, 16)] has no such limit, so an
    integer read from the endpoint can be one that cannot be printed. *)
Definition str_int (v : Z) : result unit :=
  if 10 ^ int_max_str_digits <=? Z.abs v then Raise digits_error else Ok tt.

(** ** The JSON-RPC client and the probe loop *)

Section Script.

(** A decoded JSON value, as [json.loads] returns it. *)
Context {value : Type}.

(** The Keccak-256 digest, [keccak.new(digest_bits=256)] updated with the
    bytes and read with [digest()]. *)
Variable keccak256 : list byte -> list byte.

(** [int(x, 16)] on a decoded JSON value. *)
Variable int16 : value -> result Z.

(** [str(x)], the text an f-string puts for a JSON value. *)
Variable str_of : value -> string.

(** An element of the [params] list of a request. *)
Inductive param : Type :=
| PStr (s : string)                (* a Python str *)
| PJson (v : value)                (* a value a previous call returned *)
| PCall (to data : string).        (* the dict with keys "to" and "data" *)

(** The dict [payload] of [rpc]. *)
Record payload : Type := Payload {
  jsonrpc : string;
  id : Z;
  method : string;
  params : list param
}.

(** What comes back from posting a payload: [urlopen], [read], [decode] or
    [json.loads] raised, or a JSON document was decoded; of the documents
    only a JSON object is a dict. *)
Inductive reply : Type :=
| ReplyRaise (e : exn)
| ReplyObject (j : gmap string value)
| ReplyOther.

(** The endpoint: its state and its answer to a payload posted to a URL. *)
Context {node : Type}.
Variable urlopen : node -> string -> payload -> node * reply.

(** One call of [rpc] as the run records it. *)
Record call : Type := Call {
  call_method : string;
  call_params : list param;
  call_result : result value
}.

(** A line the script prints; the first four go to standard output, the
    others to standard error. *)
Inductive output : Type :=
| out_before (before : Z)
| out_found (i : Z)
| out_key (storage_key : string)
| out_after (after : Z)
| err_eth_call (e : exn)
| err_rpc (i : Z) (e : exn)
| err_restore (i : Z) (e : exn)
| err_not_found (max_slot : Z).

(** The state a run threads: the endpoint, the calls made so far and the
    lines printed so far, both oldest first. *)
Record world : Type := World {
  w_node : node;
  w_trace : list call;
  w_out : list output
}.

Definition M (A : Type) : Type := world -> result A * world.

Definition ret {A} (a : A) : M A := fun w => (Ok a, w).

Definition bind {A B} (m : M A) (k : A -> M B) : M B :=
  fun w =>
    match m w with
    | (Ok a, w') => k a w'
    | (Raise e, w') => (Raise e, w')
    end.

Definition lift {A} (r : result A) : M A := fun w => (r, w).

(** [try: m  except Exception as e: ...], with the handler left to the
    caller: the outcome of [m] becomes a value. *)
Definition try_ {A} (m : M A) : M (result A) :=
  fun w => let '(r, w') := m w in (Ok r, w').

(** The integer a line has as an f-string field, if it has one. *)
Definition line_int (o : output) : option Z :=
  match o with
  | out_before before => Some before
  | out_found i => Some i
  | out_key _ => None
  | out_after after => Some after
  | err_eth_call _ => None
  | err_rpc i _ => Some i
  | err_restore i _ => Some i
  | err_not_found max_slot => Some max_slot
  end.

(** The evaluation of the f-string of a line. *)
Definition format (o : output) : result unit :=
  match line_int o with
  | Some v => str_int v
  | None => Ok tt
  end.

(** [print(f"...")]: the f-string is evaluated first, and when that raises
    nothing is printed. *)
Definition print (o : output) : M unit :=
  fun w =>
    match format o with
    | Ok _ => (Ok tt, World (w_node w) (w_trace w) (w_out w ++ [o]))
    | Raise e => (Raise e, w)
    end.

Notation "x <- m ;; k" := (bind m (fun x => k))
  (at level 100, m at next level, right associativity).
Notation "m ;;; k" := (bind m (fun _ => k))
  (at level 100, right associativity).

(** Lines 61 to 64 of [rpc]: the decoded document [j] is searched for
    "error" and indexed at "result". *)
Definition rpc_result (r : reply) : result value :=
  match r with
  | ReplyRaise e => Raise e
  | ReplyObject j =>
      match j !! "error" with
      | Some err => Raise (RuntimeError ("rpc error: " +:+ str_of err))
      | None =>
          match j !! "result" with
          | Some v => Ok v
          | None => Raise (KeyError "result")
          end
      end
  | ReplyOther => Raise (TypeError "not a dict")
  end.

Definition rpc (rpc_url : string) (method : string) (params : list param)
  : M value :=
  fun w =>
    let payload := Payload "2.0" 1 method params in
    let '(n, r) := urlopen (w_node w) rpc_url payload in
    let res := rpc_result r in
    (res, World n (w_trace w ++ [Call method params res]) (w_out w)).

Definition balance_of_selector : list byte :=
  take 4 (keccak256 (byte_of_Z <$> [98; 97; 108; 97; 110; 99; 101; 79; 102;
    40; 97; 100; 100; 114; 101; 115; 115; 41])).

Definition encode_balance_of (account : string) : result string :=
  let sel := balance_of_selector in
  a <-? addr_to_bytes32 account;
  Ok (bytes_to_hex (sel ++ a)).

(** The command line after [parse_args]. *)
Record args : Type := Args {
  arg_rpc : string;
  arg_token : string;
  arg_account : string;
  arg_amount : Z;
  arg_max_slot : Z
}.

(** [range(n)] *)
Definition range (n : Z) : list Z := Z.of_nat <$> seq 0 (Z.to_nat n).

Definition storage_key_of (account : string) (i : Z) : result string :=
  a <-? addr_to_bytes32 account;
  s <-? int_to_bytes32 i;
  Ok (bytes_to_hex (keccak256 (a ++ s))).

(** The body of the [for] loop of [main] at index [i]: [Some c] when the
    body returns [c] from [main], [None] when the loop goes on. *)
Definition probe (a : args) (call_data desired_word : string) (i : Z)
  : M (option Z) :=
  let rpc_url := arg_rpc a in
  let token := arg_token a in
  storage_key <- lift (storage_key_of (arg_account a) i) ;;
  r <- try_ (
    old_word <- rpc rpc_url "eth_getStorageAt"
                  [PStr token; PStr storage_key; PStr "latest"] ;;
    rpc rpc_url "anvil_setStorageAt"
      [PStr token; PStr storage_key; PStr desired_word] ;;;
    after_hex <- rpc rpc_url "eth_call"
                   [PCall token call_data; PStr "latest"] ;;
    after <- lift (int16 after_hex) ;;
    ret (old_word, after)) ;;
  match r with
  | Raise e => print (err_rpc i e) ;;; ret (Some 2)
  | Ok (old_word, after) =>
      if after =? arg_amount a then
        print (out_found i) ;;;
        print (out_key storage_key) ;;;
        print (out_after after) ;;;
        ret (Some 0)
      else
        r <- try_ (rpc rpc_url "anvil_setStorageAt"
                     [PStr token; PStr storage_key; PJson old_word]) ;;
        match r with
        | Raise e => print (err_restore i e) ;;; ret (Some 2)
        | Ok _ => ret None
        end
  end.

(** The [for] loop over the indices [l]. *)
Fixpoint probe_loop (a : args) (call_data desired_word : string)
    (l : list Z) : M (option Z) :=
  match l with
  | [] => ret None
  | i :: l' =>
      r <- probe a call_data desired_word i ;;
      match r with
      | Some c => ret (Some c)
      | None => probe_loop a call_data desired_word l'
      end
  end.

Definition main (a : args) : M Z :=
  let rpc_url := arg_rpc a in
  let token := arg_token a in
  let account := arg_account a in
  let amount := arg_amount a in
  call_data <- lift (encode_balance_of account) ;;
  r <- try_ (
    before_hex <- rpc rpc_url "eth_call"
                    [PCall token call_data; PStr "latest"] ;;
    lift (int16 before_hex)) ;;
  match r with
  | Raise e => print (err_eth_call e) ;;; ret 2
  | Ok before =>
      print (out_before before) ;;;
      desired_word <- lift (int_to_storage_word amount) ;;
      r <- probe_loop a call_data desired_word (range (arg_max_slot a + 1)) ;;
      match r with
      | Some c => ret c
      | None => print (err_not_found (arg_max_slot a)) ;;; ret 1
      end
  end.

(** A run of the script against an endpoint in state [n]. *)
Definition run (a : args) (n : node) : result Z * world :=
  main a (World n [] []).

(** [raise SystemExit(main())]: the exit status of the process is the
    integer [main] returns; an exception that leaves [main] ends the
    interpreter with a traceback and status 1. *)
Definition exit_status (r : result Z) : Z :=
  match r with
  | Ok c => c
  | Raise _ => 1
  end.

(** ** Runs as the statements describe them *)

(** The three calls the script makes, with what [rpc] gave back. *)
Definition balance_call (a : args) (call_data : string) (r : result value)
  : call :=
  Call "eth_call" [PCall (arg_token a) call_data; PStr "latest"] r.

Definition read_call (a : args) (key : string) (r : result value) : call :=
  Call "eth_getStorageAt" [PStr (arg_token a); PStr key; PStr "latest"] r.

Definition write_call (a : args) (key : string) (word : param)
    (r : result value) : call :=
  Call "anvil_setStorageAt" [PStr (arg_token a); PStr key; word] r.

Definition is_write (c : call) : bool :=
  String.eqb (call_method c) "anvil_setStorageAt".

Definition is_balance_read (c : call) : bool :=
  String.eqb (call_method c) "eth_call".

(** The integer a call yields where the script reads one with
    [int(..., 16)]. *)
Definition read_int (c : call) : result Z :=
  v <-? call_result c; int16 v.

(** A call that went well: [rpc] returned, and what a balance read returned
    was an integer.  The script reports either failure with the same
    message and the same status. *)
Definition call_ok (c : call) : bool :=
  if is_balance_read c then is_ok (read_int c) else is_ok (call_result c).

(** The balances read in a run, oldest first: the first is the reading
    before any write, the next ones are the readings after the write at
    index 0, at index 1, and so on. *)
Definition balance_reads (t : list call) : list (result Z) :=
  read_int <$> List.filter is_balance_read t.

(** The four calls of an index that did not match and was restored. *)
Inductive restored (a : args) (call_data desired_word : string) (i : Z)
  : list call -> Prop :=
| restored_intro key old w1 v after w2 :
    storage_key_of (arg_account a) i = Ok key ->
    int16 v = Ok after ->
    after <> arg_amount a ->
    restored a call_data desired_word i
      [read_call a key (Ok old);
       write_call a key (PStr desired_word) (Ok w1);
       balance_call a call_data (Ok v);
       write_call a key (PJson old) (Ok w2)].

(** The three calls of the index that matched. *)
Inductive found (a : args) (call_data desired_word : string) (i : Z)
  : list call -> Prop :=
| found_intro key old w1 v :
    storage_key_of (arg_account a) i = Ok key ->
    int16 v = Ok (arg_amount a) ->
    found a call_data desired_word i
      [read_call a key (Ok old);
       write_call a key (PStr desired_word) (Ok w1);
       balance_call a call_data (Ok v)].

(** What one turn of the loop does at index [i]: its outcome, the calls it
    makes and the lines it prints. *)
Inductive probe_behaviour (a : args) (call_data desired_word : string)
    (i : Z) : result (option Z) -> list call -> list output -> Prop :=
| pb_no_key e :
    storage_key_of (arg_account a) i = Raise e ->
    probe_behaviour a call_data desired_word i (Raise e) [] []
| pb_read_failed key e :
    storage_key_of (arg_account a) i = Ok key ->
    probe_behaviour a call_data desired_word i (Ok (Some 2))
      [read_call a key (Raise e)]
      [err_rpc i e]
| pb_write_failed key old e :
    storage_key_of (arg_account a) i = Ok key ->
    probe_behaviour a call_data desired_word i (Ok (Some 2))
      [read_call a key (Ok old);
       write_call a key (PStr desired_word) (Raise e)]
      [err_rpc i e]
| pb_verify_failed key old w1 e :
    storage_key_of (arg_account a) i = Ok key ->
    probe_behaviour a call_data desired_word i (Ok (Some 2))
      [read_call a key (Ok old);
       write_call a key (PStr desired_word) (Ok w1);
       balance_call a call_data (Raise e)]
      [err_rpc i e]
| pb_verify_unreadable key old w1 v e :
    storage_key_of (arg_account a) i = Ok key ->
    int16 v = Raise e ->
    probe_behaviour a call_data desired_word i (Ok (Some 2))
      [read_call a key (Ok old);
       write_call a key (PStr desired_word) (Ok w1);
       balance_call a call_data (Ok v)]
      [err_rpc i e]
| pb_found key t :
    storage_key_of (arg_account a) i = Ok key ->
    found a call_data desired_word i t ->
    probe_behaviour a call_data desired_word i (Ok (Some 0)) t
      [out_found i; out_key key; out_after (arg_amount a)]
| pb_restore_failed key old w1 v after e :
    storage_key_of (arg_account a) i = Ok key ->
    int16 v = Ok after ->
    after <> arg_amount a ->
    probe_behaviour a call_data desired_word i (Ok (Some 2))
      [read_call a key (Ok old);
       write_call a key (PStr desired_word) (Ok w1);
       balance_call a call_data (Ok v);
       write_call a key (PJson old) (Raise e)]
      [err_restore i e]
| pb_restored t :
    restored a call_data desired_word i t ->
    probe_behaviour a call_data desired_word i (Ok None) t [].

(** What the loop does over the indices [l]. *)
Inductive loop_behaviour (a : args) (call_data desired_word : string)
  : list Z -> result (option Z) -> list call -> list output -> Prop :=
| lb_done :
    loop_behaviour a call_data desired_word [] (Ok None) [] []
| lb_stop i l r t o :
    probe_behaviour a call_data desired_word i r t o ->
    r <> Ok None ->
    loop_behaviour a call_data desired_word (i :: l) r t o
| lb_next i l r t1 t2 o :
    restored a call_data desired_word i t1 ->
    loop_behaviour a call_data desired_word l r t2 o ->
    loop_behaviour a call_data desired_word (i :: l) r (t1 ++ t2) o.

(** What [main] does. *)
Inductive main_behaviour (a : args)
  : result Z -> list call -> list output -> Prop :=
| mb_bad_account e :
    encode_balance_of (arg_account a) = Raise e ->
    main_behaviour a (Raise e) [] []
| mb_first_read_failed call_data r e :
    encode_balance_of (arg_account a) = Ok call_data ->
    read_int (balance_call a call_data r) = Raise e ->
    main_behaviour a (Ok 2) [balance_call a call_data r] [err_eth_call e]
| mb_bad_amount call_data r before e :
    encode_balance_of (arg_account a) = Ok call_data ->
    read_int (balance_call a call_data r) = Ok before ->
    int_to_storage_word (arg_amount a) = Raise e ->
    str_int before = Ok tt ->
    main_behaviour a (Raise e) [balance_call a call_data r] [out_before before]
| mb_returned call_data r before desired_word c t o :
    encode_balance_of (arg_account a) = Ok call_data ->
    read_int (balance_call a call_data r) = Ok before ->
    int_to_storage_word (arg_amount a) = Ok desired_word ->
    loop_behaviour a call_data desired_word (range (arg_max_slot a + 1))
      (Ok (Some c)) t o ->
    str_int before = Ok tt ->
    main_behaviour a (Ok c) (balance_call a call_data r :: t)
      (out_before before :: o)
| mb_raised call_data r before desired_word e t o :
    encode_balance_of (arg_account a) = Ok call_data ->
    read_int (balance_call a call_data r) = Ok before ->
    int_to_storage_word (arg_amount a) = Ok desired_word ->
    loop_behaviour a call_data desired_word (range (arg_max_slot a + 1))
      (Raise e) t o ->
    str_int before = Ok tt ->
    main_behaviour a (Raise e) (balance_call a call_data r :: t)
      (out_before before :: o)
| mb_exhausted call_data r before desired_word t o :
    encode_balance_of (arg_account a) = Ok call_data ->
    read_int (balance_call a call_data r) = Ok before ->
    int_to_storage_word (arg_amount a) = Ok desired_word ->
    loop_behaviour a call_data desired_word (range (arg_max_slot a + 1))
      (Ok None) t o ->
    str_int before = Ok tt ->
    str_int (arg_max_slot a) = Ok tt ->
    main_behaviour a (Ok 1) (balance_call a call_data r :: t)
      (out_before before :: o ++ [err_not_found (arg_max_slot a)])
| mb_before_unprintable call_data r before e :
    encode_balance_of (arg_account a) = Ok call_data ->
    read_int (balance_call a call_data r) = Ok before ->
    str_int before = Raise e ->
    main_behaviour a (Raise e) [balance_call a call_data r] []
| mb_bound_unprintable call_data r before desired_word e t o :
    encode_balance_of (arg_account a) = Ok call_data ->
    read_int (balance_call a call_data r) = Ok before ->
    int_to_storage_word (arg_amount a) = Ok desired_word ->
    loop_behaviour a call_data desired_word (range (arg_max_slot a + 1))
      (Ok None) t o ->
    str_int before = Ok tt ->
    str_int (arg_max_slot a) = Raise e ->
    main_behaviour a (Raise e) (balance_call a call_data r :: t)
      (out_before before :: o).

End Script.

(** ** The endpoint as a store *)

Section Endpoint.

Context {value node : Type}.
Variable str_of : value -> string.
Variable urlopen : node -> string -> @payload value -> node * @reply value.

(** The payload [rpc] posts for a call. *)
Definition payload_of (c : @call value) : @payload value :=
  Payload "2.0" 1 (call_method c) (call_params c).

(** The calls of a list, posted in order to [rpc_url], take the endpoint
    from one state to another and get the results the list records. *)
Inductive replay (rpc_url : string) : node -> list call -> node -> Prop :=
| replay_nil n : replay rpc_url n [] n
| replay_cons n c t n' :
    call_result c = rpc_result str_of (urlopen n rpc_url (payload_of c)).2 ->
    replay rpc_url (urlopen n rpc_url (payload_of c)).1 t n' ->
    replay rpc_url n (c :: t) n'.

(** A later state of a run: more calls, all of them posted to [rpc_url]. *)
Definition continues (rpc_url : string) (w w' : @world value node) : Prop :=
  exists t,
    w_trace w' = w_trace w ++ t /\
    replay rpc_url (w_node w) t (w_node w').

(** A computation whose calls all go to [rpc_url]. *)
Definition faithful {A} (rpc_url : string) (m : @M value node A) : Prop :=
  forall w, continues rpc_url w (m w).2.

(** The word a storage write carries: a text of the script, as the JSON
    string [of_str] makes of it, or a value an earlier call returned. *)
Definition word_of (of_str : string -> value) (p : @param value)
  : option value :=
  match p with
  | PStr s => Some (of_str s)
  | PJson v => Some v
  | PCall _ _ => None
  end.

(** An endpoint that keeps the storage of [token] as a store does: [view n]
    is the storage in state [n], key by key.  A read that returns, returns
    the word at the key; a read and a balance read leave the storage as it
    is; a write that returns has put its word at its key and changed no
    other key. *)
Record storage_node (rpc_url token : string) (of_str : string -> value)
    (view : node -> string -> value) : Prop := {
  sn_read n key old :
    rpc_result str_of
      (urlopen n rpc_url
         (Payload "2.0" 1 "eth_getStorageAt"
            [PStr token; PStr key; PStr "latest"])).2 = Ok old ->
    old = view n key;
  sn_read_frame n key key' :
    view (urlopen n rpc_url
            (Payload "2.0" 1 "eth_getStorageAt"
               [PStr token; PStr key; PStr "latest"])).1 key'
    = view n key';
  sn_call_frame n data key' :
    view (urlopen n rpc_url
            (Payload "2.0" 1 "eth_call"
               [PCall token data; PStr "latest"])).1 key'
    = view n key';
  sn_write n key p word ack key' :
    word_of of_str p = Some word ->
    rpc_result str_of
      (urlopen n rpc_url
         (Payload "2.0" 1 "anvil_setStorageAt"
            [PStr token; PStr key; p])).2 = Ok ack ->
    view (urlopen n rpc_url
            (Payload "2.0" 1 "anvil_setStorageAt"
               [PStr token; PStr key; p])).1 key'
    = if decide (key' = key) then word else view n key'
}.

End Endpoint.

(** ** A development node for the scenarios

    The concrete runs below need an endpoint, a digest and a reader of
    integers.  The endpoint is a node that keeps the storage of one token
    contract, answers the three methods the script calls and stops answering
    after a given number of requests.  The digest stands in for Keccak-256 in
    the scenarios only: it returns the last 32 bytes of its input, so the
    storage key of index [i] is [i] itself as a 32-byte word.  The reader
    agrees with [int(s, 16)] on the words the node returns, "0x" followed by
    hexadecimal digits. *)
Module Mock.

Definition digest (b : list byte) : list byte :=
  zpad32 (drop (length b - 32) b).

Definition int16 (s : string) : result Z :=
  b <-? hex_to_bytes s; Ok (from_bytes b).

Definition str_of (s : string) : string := s.

Definition zero_word : string :=
  "0x0000000000000000000000000000000000000000000000000000000000000000".

Record node : Type := Node {
  storage : gmap string string;   (* storage key to storage word *)
  balance_key : string;           (* where the balance of the account is *)
  answers : nat                   (* requests answered before it fails *)
}.

Definition word_at (n : node) (key : string) : string :=
  default zero_word (storage n !! key).

Definition urlopen (n : node) (url : string) (p : @payload string)
  : node * @reply string :=
  match answers n with
  | O => (n, ReplyObject {[ "error" := "node is down" ]})
  | S k =>
      let n' := Node (storage n) (balance_key n) k in
      match method p, params p with
      | "eth_call", _ =>
          (n', ReplyObject {[ "result" := word_at n (balance_key n) ]})
      | "eth_getStorageAt", [PStr _; PStr key; _] =>
          (n', ReplyObject {[ "result" := word_at n key ]})
      | "anvil_setStorageAt", [PStr _; PStr key; (PStr word | PJson word)] =>
          (Node (<[key := word]> (storage n)) (balance_key n) k,
           ReplyObject {[ "result" := "true" ]})
      | _, _ => (n', ReplyObject {[ "error" := "method not found" ]})
      end
  end.

Definition run := run digest int16 str_of urlopen.

Definition token : string := "0x5FbDB2315678afecb367f032d93F642f64180aa3".
Definition account : string := "0xf39Fd6e51aad88F6F4ce6aB8827279cffFb92266".
Definition url : string := "http://127.0.0.1:8545".

(** The storage key of index [i] under [digest]. *)
Definition key (i : Z) : string := bytes_to_hex (be_bytes 32 i).

(** The node whose balances mapping is at index [slot], with empty storage,
    answering [k] requests. *)
Definition node_with_slot (slot : Z) (k : nat) : node :=
  Node ∅ (key slot) k.

(** The 20 bytes of [account]. *)
Definition account_bytes : list byte :=
  Eval vm_compute in
    match hex_to_bytes account with Ok b => b | Raise _ => [] end.

(** The command line of the scenarios: amount 1000, max-slot 5. *)
Definition scenario : args := Args url token account 1000 5.

(** The text of 1800 bytes 0xff: read with [int(x, 16)] it is an integer of
    4335 decimal digits. *)
Definition long_word : string := bytes_to_hex (replicate 1800 Byte.xff).

(** The node that answers the balance read with [word], answering [k]
    requests. *)
Definition node_with_balance (word : string) (k : nat) : node :=
  Node {[ key 9 := word ]} (key 9) k.

End Mock.

(** ** Vocabulary of the statements *)

(** Lines 22 to 24 of [hex_to_bytes]: the text left once the surrounding
    white space and one leading "0x" are removed. *)
Definition hex_digits_of (h : string) : string :=
  let h := strip h in
  if startswith_0x h then drop2 h else h.

Fixpoint all_chars (p : ascii -> bool) (s : string) : bool :=
  match s with
  | EmptyString => true
  | String c s' => p c && all_chars p s'
  end.

Definition is_hex_digit (c : ascii) : bool :=
  match digit_value c with Some _ => true | None => false end.

(** Two characters that are the same, or are hexadecimal digits of the same
    value, as "a" and "A". *)
Definition same_digit (c d : ascii) : bool :=
  Ascii.eqb c d ||
  match digit_value c, digit_value d with
  | Some x, Some y => x =? y
  | _, _ => false
  end.

(** Two texts that differ at most in the case of their hexadecimal digits. *)
Fixpoint same_digits (s1 s2 : string) : bool :=
  match s1, s2 with
  | EmptyString, EmptyString => true
  | String c s1', String d s2' => same_digit c d && same_digits s1' s2'
  | _, _ => false
  end.

(** [s.encode("ascii")] for a text of code points below 128. *)
Fixpoint ascii_bytes (s : string) : list byte :=
  match s with
  | EmptyString => []
  | String c s' => byte_of_Z (Z.of_N (N_of_ascii c)) :: ascii_bytes s'
  end.

(** * Properties *)

(** ** Bytes, digits and words *)

Lemma Z_of_byte_range (x : byte) : 0 <= Z_of_byte x < 256.
Proof.
  unfold Z_of_byte. pose proof (Byte.to_N_bounded x). lia.
Qed.

Lemma Z_of_byte_of_Z (z : Z) : Z_of_byte (byte_of_Z z) = z mod 256.
Proof.
  unfold Z_of_byte, byte_of_Z.
  assert (Hr : 0 <= z mod 256 < 256) by (apply Z.mod_pos_bound; lia).
  destruct (Byte.of_N (Z.to_N (z mod 256))) as [b|] eqn:E.
  - apply Byte.to_of_N in E. simpl. rewrite E. lia.
  - apply Byte.of_N_None_iff in E. lia.
Qed.

Lemma byte_of_Z_of_byte (x : byte) : byte_of_Z (Z_of_byte x) = x.
Proof.
  unfold byte_of_Z. rewrite Z.mod_small by apply Z_of_byte_range.
  unfold Z_of_byte. rewrite N2Z.id, Byte.of_to_N. reflexivity.
Qed.

Lemma length_be_bytes (n : nat) (v : Z) : length (be_bytes n v) = n.
Proof.
  revert v. induction n as [|n IH]; intros v; simpl; [reflexivity|].
  rewrite length_app, IH. simpl. lia.
Qed.

Lemma from_bytes_snoc (b : list byte) (x : byte) :
  from_bytes (b ++ [x]) = 256 * from_bytes b + Z_of_byte x.
Proof.
  unfold from_bytes. rewrite fold_left_app. reflexivity.
Qed.

Lemma from_bytes_be_bytes (n : nat) (v : Z) :
  0 <= v < 2 ^ (8 * Z.of_nat n) -> from_bytes (be_bytes n v) = v.
Proof.
  revert v. induction n as [|n IH]; intros v Hv.
  - simpl in *. change (from_bytes []) with 0. lia.
  - simpl be_bytes. rewrite from_bytes_snoc, Z_of_byte_of_Z, IH.
    + pose proof (Z.div_mod v 256). lia.
    + replace (8 * Z.of_nat (S n)) with (8 * Z.of_nat n + 8) in Hv by lia.
      rewrite Z.pow_add_r in Hv by lia. change (2 ^ 8) with 256 in Hv.
      split; [apply Z.div_pos; lia|].
      apply Z.div_lt_upper_bound; lia.
Qed.

Lemma to_bytes_ok (n : nat) (v : Z) :
  0 <= v < 2 ^ (8 * Z.of_nat n) -> to_bytes n v = Ok (be_bytes n v).
Proof.
  intros Hv. unfold to_bytes.
  destruct (Z.ltb_spec v 0); [lia|].
  destruct (Z.leb_spec (2 ^ (8 * Z.of_nat n)) v); [lia|]. reflexivity.
Qed.

Lemma length_hex (b : list byte) : String.length (hex b) = (2 * length b)%nat.
Proof.
  induction b as [|x b IH]; simpl; [reflexivity|]. rewrite IH. lia.
Qed.

Lemma fromhex_hex_cons (x : byte) (s : string) :
  fromhex (String (hexdigit (Z_of_byte x / 16))
             (String (hexdigit (Z_of_byte x mod 16)) s))
  = (bs <-? fromhex s; Ok (x :: bs)).
Proof.
  destruct x; reflexivity.
Qed.

Lemma fromhex_hex (b : list byte) : fromhex (hex b) = Ok b.
Proof.
  induction b as [|x b IH]; [reflexivity|].
  cbn [hex]. rewrite fromhex_hex_cons, IH. reflexivity.
Qed.

(** ** Decoding hexadecimal text *)

Lemma hex_digit_not_space (c : ascii) :
  is_hex_digit c = true ->
  is_py_space c = false /\ is_c_space c = false /\ c <> "x"%char.
Proof.
  destruct c as [[] [] [] [] [] [] [] []]; vm_compute; intros H;
    try discriminate H; repeat split; discriminate.
Qed.

Lemma is_hex_digit_value (c : ascii) :
  is_hex_digit c = true -> exists v, digit_value c = Some v.
Proof.
  unfold is_hex_digit. destruct (digit_value c) as [v|]; [eauto|discriminate].
Qed.

Lemma rstrip_no_space (s : string) :
  all_chars (fun c => negb (is_py_space c)) s = true -> rstrip s = s.
Proof.
  induction s as [|c s IH]; [reflexivity|]. cbn [all_chars rstrip].
  intros [Hc Hs]%andb_prop. rewrite (IH Hs).
  destruct s; [|reflexivity].
  apply negb_true_iff in Hc. rewrite Hc. reflexivity.
Qed.

Lemma lstrip_no_space (s : string) :
  all_chars (fun c => negb (is_py_space c)) s = true -> lstrip s = s.
Proof.
  destruct s as [|c s]; [reflexivity|]. cbn [all_chars lstrip].
  intros [Hc _]%andb_prop. apply negb_true_iff in Hc. rewrite Hc. reflexivity.
Qed.

Lemma strip_no_space (s : string) :
  all_chars (fun c => negb (is_py_space c)) s = true -> strip s = s.
Proof.
  intros H. unfold strip. rewrite (lstrip_no_space s H). apply rstrip_no_space, H.
Qed.

Lemma all_chars_impl (p q : ascii -> bool) (s : string) :
  (forall c, p c = true -> q c = true) ->
  all_chars p s = true -> all_chars q s = true.
Proof.
  intros Hpq. induction s as [|c s IH]; [reflexivity|]. cbn [all_chars].
  intros [Hc Hs]%andb_prop. rewrite (Hpq c Hc), (IH Hs). reflexivity.
Qed.

Lemma hex_digits_no_space (s : string) :
  all_chars is_hex_digit s = true ->
  all_chars (fun c => negb (is_py_space c)) s = true.
Proof.
  apply all_chars_impl. intros c Hc.
  destruct (hex_digit_not_space c Hc) as [-> _]. reflexivity.
Qed.

Lemma hex_digits_no_prefix (s : string) :
  all_chars is_hex_digit s = true -> startswith_0x s = false.
Proof.
  destruct s as [|c [|d s]]; [reflexivity| |].
  { intros _. destruct c as [[] [] [] [] [] [] [] []]; reflexivity. }
  cbn [all_chars]. intros [_ [Hd _]%andb_prop]%andb_prop.
  destruct (hex_digit_not_space d Hd) as (_ & _ & Hx).
  unfold startswith_0x.
  destruct c as [[] [] [] [] [] [] [] []]; try reflexivity.
  destruct d as [[] [] [] [] [] [] [] []]; try reflexivity.
  congruence.
Qed.

Lemma hex_digits_of_digits (s : string) :
  all_chars is_hex_digit s = true -> hex_digits_of s = s.
Proof.
  intros H. unfold hex_digits_of.
  rewrite (strip_no_space s (hex_digits_no_space s H)).
  rewrite (hex_digits_no_prefix s H). reflexivity.
Qed.

Lemma fromhex_digits (n : nat) (s : string) :
  String.length s = (2 * n)%nat -> all_chars is_hex_digit s = true ->
  exists b, fromhex s = Ok b /\ length b = n.
Proof.
  revert s. induction n as [|n IH]; intros s Hlen Hs.
  - destruct s; [|discriminate Hlen]. exists []. split; reflexivity.
  - destruct s as [|c [|d s]]; try (simpl in Hlen; lia).
    cbn [all_chars] in Hs.
    apply andb_prop in Hs as [Hc [Hd Hs]%andb_prop].
    destruct (IH s) as (b & Hb & Hbl); [simpl in Hlen; lia|exact Hs|].
    destruct (hex_digit_not_space c Hc) as (_ & Hsp & _).
    destruct (is_hex_digit_value c Hc) as [top Htop].
    destruct (is_hex_digit_value d Hd) as [bot Hbot].
    exists (byte_of_Z (16 * top + bot) :: b). split.
    + cbn [fromhex]. rewrite Hsp, Htop, Hbot, Hb. reflexivity.
    + simpl. rewrite Hbl. reflexivity.
Qed.

Lemma hex_all_digits (b : list byte) : all_chars is_hex_digit (hex b) = true.
Proof.
  induction b as [|x b IH]; [reflexivity|]. cbn [hex all_chars].
  rewrite IH. destruct x; reflexivity.
Qed.

Lemma hex_to_bytes_unfold (h : string) :
  hex_to_bytes h =
  fromhex (if Z.of_nat (String.length (hex_digits_of h)) mod 2 =? 0
           then hex_digits_of h else String "0" (hex_digits_of h)).
Proof. reflexivity. Qed.

Lemma hex_to_bytes_of_hex (b : list byte) : hex_to_bytes (bytes_to_hex b) = Ok b.
Proof.
  rewrite hex_to_bytes_unfold.
  assert (Hd : hex_digits_of (bytes_to_hex b) = hex b).
  { unfold hex_digits_of, bytes_to_hex.
    change ("0x" +:+ hex b) with (String "0" (String "x" (hex b))).
    rewrite strip_no_space; [reflexivity|].
    cbn [all_chars].
    rewrite (hex_digits_no_space _ (hex_all_digits b)). reflexivity. }
  rewrite Hd, length_hex.
  replace (Z.of_nat (2 * length b) mod 2) with 0
    by (rewrite Nat2Z.inj_mul, Z.mul_comm, Z_mod_mult; reflexivity).
  apply fromhex_hex.
Qed.

(** ** Storage words *)

Lemma storage_word_roundtrip (v : Z) :
  0 <= v < 2 ^ 256 ->
  exists w b,
    int_to_storage_word v = Ok w /\ hex_to_bytes w = Ok b /\
    length b = 32%nat /\ from_bytes b = v.
Proof.
  intros Hv. exists (bytes_to_hex (be_bytes 32 v)), (be_bytes 32 v).
  split; [|split; [|split]].
  - unfold int_to_storage_word. destruct (Z.ltb_spec v 0); [lia|].
    rewrite to_bytes_ok by exact Hv. reflexivity.
  - apply hex_to_bytes_of_hex.
  - apply length_be_bytes.
  - apply from_bytes_be_bytes. exact Hv.
Qed.

(** C8: the amounts 0 and 2^256 - 1, encoded as storage words, read back
    from the 32 bytes of the word as big-endian unsigned integers, give the
    amounts again. *)
Theorem storage_word_roundtrip_extremes :
  (exists w b,
     int_to_storage_word 0 = Ok w /\ hex_to_bytes w = Ok b /\
     length b = 32%nat /\ from_bytes b = 0) /\
  (exists w b,
     int_to_storage_word (2 ^ 256 - 1) = Ok w /\ hex_to_bytes w = Ok b /\
     length b = 32%nat /\ from_bytes b = 2 ^ 256 - 1).
Proof.
  split; apply storage_word_roundtrip; lia.
Qed.

(** ** Addresses with an odd number of digits *)

Lemma odd_length_not_even (n : nat) :
  Nat.Odd n -> (Z.of_nat n mod 2 =? 0) = false.
Proof.
  intros [m ->]. apply Z.eqb_neq.
  replace (Z.of_nat (2 * m + 1)) with (1 + Z.of_nat m * 2) by lia.
  rewrite Z_mod_plus_full. discriminate.
Qed.

(** C9: when the digits of an address, white space and "0x" apart, are odd
    in number, [hex_to_bytes] decodes them behind one more "0"; so an
    address of 39 hexadecimal digits decodes to 20 bytes and
    [addr_to_bytes32] accepts it. *)
Theorem odd_hex_address_accepted (s : string) :
  Nat.Odd (String.length (hex_digits_of s)) ->
  hex_to_bytes s = fromhex (String "0" (hex_digits_of s)) /\
  (String.length (hex_digits_of s) = 39%nat ->
   all_chars is_hex_digit (hex_digits_of s) = true ->
   exists b,
     hex_to_bytes s = Ok b /\ length b = 20%nat /\
     addr_to_bytes32 s = Ok (zpad32 b)).
Proof.
  intros Hodd.
  assert (Hdec : hex_to_bytes s = fromhex (String "0" (hex_digits_of s))).
  { rewrite hex_to_bytes_unfold, (odd_length_not_even _ Hodd). reflexivity. }
  split; [exact Hdec|]. intros Hlen Hdigits.
  destruct (fromhex_digits 20 (String "0" (hex_digits_of s))) as (b & Hb & Hbl).
  - simpl. rewrite Hlen. reflexivity.
  - cbn [all_chars]. rewrite Hdigits. reflexivity.
  - exists b. split; [congruence|]. split; [exact Hbl|].
    unfold addr_to_bytes32. rewrite Hdec, Hb. cbn [rbind].
    destruct (decide (length b = 20%nat)); [reflexivity|contradiction].
Qed.

Lemma odd_hex_address_accepted_witness :
  exists b,
    hex_to_bytes "  0x123456789abcdefABCDEF0123456789abcdef01 " = Ok b /\
    length b = 20%nat /\
    addr_to_bytes32 "  0x123456789abcdefABCDEF0123456789abcdef01 " = Ok (zpad32 b).
Proof.
  refine (proj2 (odd_hex_address_accepted
    "  0x123456789abcdefABCDEF0123456789abcdef01 " _) _ _).
  - exists 19%nat. reflexivity.
  - reflexivity.
  - reflexivity.
Defined.

(** ** Integers that can be printed *)

Lemma str_int_cases (v : Z) :
  str_int v = Ok tt \/ str_int v = Raise digits_error.
Proof. unfold str_int. destruct (_ <=? _); [right|left]; reflexivity. Qed.

Lemma str_int_small (v : Z) :
  Z.abs v < 10 ^ int_max_str_digits -> str_int v = Ok tt.
Proof.
  intros Hv. unfold str_int.
  destruct (Z.leb_spec (10 ^ int_max_str_digits) (Z.abs v)) as [Hle|_];
    [|reflexivity].
  exfalso. revert Hv Hle. generalize (10 ^ int_max_str_digits). lia.
Qed.

Lemma str_int_large (v : Z) :
  10 ^ int_max_str_digits <= Z.abs v -> str_int v = Raise digits_error.
Proof.
  intros Hv. unfold str_int.
  destruct (Z.leb_spec (10 ^ int_max_str_digits) (Z.abs v)) as [_|Hlt];
    [reflexivity|].
  exfalso. revert Hv Hlt. generalize (10 ^ int_max_str_digits). lia.
Qed.

Lemma word_below_limit : 2 ^ 256 <= 10 ^ int_max_str_digits.
Proof. vm_compute. discriminate. Qed.

Lemma str_int_word (v : Z) : 0 <= v < 2 ^ 256 -> str_int v = Ok tt.
Proof.
  intros Hv. apply str_int_small.
  pose proof word_below_limit as Hlim. revert Hlim.
  generalize (10 ^ int_max_str_digits). lia.
Qed.

Lemma to_bytes_32_range (v : Z) (b : list byte) :
  0 <= v -> to_bytes 32 v = Ok b -> v < 2 ^ 256.
Proof.
  intros Hv. unfold to_bytes.
  destruct (Z.ltb_spec v 0); [lia|].
  change (8 * Z.of_nat 32) with 256.
  destruct (Z.leb_spec (2 ^ 256) v); [discriminate|lia].
Qed.

Lemma index_printable (i : Z) (b : list byte) :
  int_to_bytes32 i = Ok b -> str_int i = Ok tt.
Proof.
  unfold int_to_bytes32. destruct (Z.ltb_spec i 0); [discriminate|].
  intros Hb. apply str_int_word. split; [assumption|].
  by apply (to_bytes_32_range i b).
Qed.

Lemma amount_printable (v : Z) (w : string) :
  int_to_storage_word v = Ok w -> str_int v = Ok tt.
Proof.
  unfold int_to_storage_word. destruct (Z.ltb_spec v 0); [discriminate|].
  destruct (to_bytes 32 v) as [b|e] eqn:Hb; [|discriminate].
  intros _. apply str_int_word. split; [assumption|].
  by apply (to_bytes_32_range v b).
Qed.

(** ** What a run does *)

Section Facts.

Context {value node : Type}.
Variable keccak256 : list byte -> list byte.
Variable int16 : value -> result Z.
Variable str_of : value -> string.
Variable urlopen : node -> string -> @payload value -> node * @reply value.

Implicit Types (a : @args) (w : @world value node) (t : list (@call value))
  (o : list output) (c : @call value).

Lemma rpc_spec (url m : string) (ps : list param) w :
  exists n r,
    rpc str_of urlopen url m ps w
    = (r, World n (w_trace w ++ [Call m ps r]) (w_out w)).
Proof.
  unfold rpc. destruct (urlopen _ _ _) as [n r]. eauto.
Qed.

Lemma world_eta w : w = World (w_node w) (w_trace w ++ []) (w_out w ++ []).
Proof. destruct w; simpl. rewrite !app_nil_r. reflexivity. Qed.

Ltac step_rpc n r :=
  match goal with
  | |- context [rpc str_of urlopen ?u ?m ?ps ?w] =>
      let H := fresh "Hrpc" in
      destruct (rpc_spec u m ps w) as (n & r & H); rewrite H; clear H;
      cbn [w_node w_trace w_out]
  end.

Lemma key_printable (account : string) (i : Z) (key : string) :
  storage_key_of keccak256 account i = Ok key -> str_int i = Ok tt.
Proof.
  unfold storage_key_of. destruct (addr_to_bytes32 account); [|discriminate].
  cbn [rbind]. destruct (int_to_bytes32 i) as [b|e] eqn:Hb; [|discriminate].
  intros _. by apply (index_printable i b).
Qed.

(** The lines of a turn of the loop have the index and the amount as their
    integers: the index has a key, so both are below 2^256 in [main]. *)
Lemma probe_sound a (call_data desired_word : string) (i : Z) w :
  str_int (arg_amount a) = Ok tt ->
  exists r n t o,
    probe keccak256 int16 str_of urlopen a call_data desired_word i w
    = (r, World n (w_trace w ++ t) (w_out w ++ o)) /\
    probe_behaviour keccak256 int16 a call_data desired_word i r t o.
Proof.
  intros Hamt.
  unfold probe, bind, lift, try_, ret, print, format. cbn [line_int].
  destruct (storage_key_of keccak256 (arg_account a) i) as [key|e] eqn:Hkey.
  2:{ exists (Raise e), (w_node w), [], []. split; [|by constructor].
      f_equal. apply world_eta. }
  rewrite (key_printable _ _ _ Hkey).
  step_rpc n1 r1. destruct r1 as [old|e].
  2:{ eexists _, _, [_], [_]. split; [reflexivity|]. by apply pb_read_failed. }
  step_rpc n2 r2. destruct r2 as [w1|e].
  2:{ eexists _, _, [_; _], [_]. split.
      - rewrite <- !app_assoc. reflexivity.
      - by apply pb_write_failed. }
  step_rpc n3 r3. destruct r3 as [v|e].
  2:{ eexists _, _, [_; _; _], [_]. split.
      - rewrite <- !app_assoc. reflexivity.
      - by apply pb_verify_failed. }
  destruct (int16 v) as [after|e] eqn:Hafter.
  2:{ eexists _, _, [_; _; _], [_]. split.
      - rewrite <- !app_assoc. reflexivity.
      - by eapply pb_verify_unreadable. }
  destruct (Z.eqb_spec after (arg_amount a)) as [->|Hne].
  { rewrite Hamt. eexists _, _, [_; _; _], [_; _; _]. split.
    - cbn [w_node w_trace w_out]. rewrite <- !app_assoc. reflexivity.
    - eapply pb_found; [exact Hkey|]. by econstructor. }
  step_rpc n4 r4. destruct r4 as [w2|e].
  2:{ eexists _, _, [_; _; _; _], [_]. split.
      - rewrite <- !app_assoc. reflexivity.
      - by eapply pb_restore_failed. }
  eexists _, _, [_; _; _; _], []. split.
  - rewrite <- !app_assoc, app_nil_r. reflexivity.
  - apply pb_restored. by econstructor.
Qed.

Lemma probe_loop_sound a (call_data desired_word : string) (l : list Z) w :
  str_int (arg_amount a) = Ok tt ->
  exists r n t o,
    probe_loop keccak256 int16 str_of urlopen a call_data desired_word l w
    = (r, World n (w_trace w ++ t) (w_out w ++ o)) /\
    loop_behaviour keccak256 int16 a call_data desired_word l r t o.
Proof.
  intros Hamt. revert w. induction l as [|i l IH]; intros w.
  - exists (Ok None), (w_node w), [], []. split; [|constructor].
    cbn [probe_loop]. unfold ret. f_equal. apply world_eta.
  - cbn [probe_loop]. unfold bind at 1.
    destruct (probe_sound a call_data desired_word i w Hamt)
      as (r & n & t & o & -> & Hb).
    destruct r as [[c|]|e].
    + exists (Ok (Some c)), n, t, o. split; [reflexivity|].
      by apply lb_stop.
    + inversion Hb as [| | | | | | |t' Hres]; subst.
      destruct (IH (World n (w_trace w ++ t) (w_out w ++ [])))
        as (r & n' & t2 & o2 & -> & Hl).
      cbn [w_node w_trace w_out].
      exists r, n', (t ++ t2), o2. split.
      * rewrite app_nil_r, app_assoc. reflexivity.
      * by apply lb_next.
    + exists (Raise e), n, t, o. split; [reflexivity|].
      by apply lb_stop.
Qed.

Lemma main_sound a (n : node) :
  exists r n' t o,
    run keccak256 int16 str_of urlopen a n = (r, World n' t o) /\
    main_behaviour keccak256 int16 a r t o.
Proof.
  unfold run, main, bind at 1, lift at 1.
  destruct (encode_balance_of keccak256 (arg_account a))
    as [call_data|e] eqn:Hcd.
  2:{ exists (Raise e), n, [], []. split; [reflexivity|]. by constructor. }
  unfold bind at 1, try_ at 1, bind at 1.
  destruct (rpc_spec (arg_rpc a) "eth_call"
              [PCall (arg_token a) call_data; PStr "latest"] (World n [] []))
    as (n0 & r0 & ->).
  cbn [w_node w_trace w_out app].
  destruct (read_int int16 (balance_call a call_data r0))
    as [before|e] eqn:Hread.
  2:{ exists (Ok 2), n0, [balance_call a call_data r0], [err_eth_call e].
      split; [|by apply mb_first_read_failed].
      unfold read_int, balance_call in Hread. cbn [call_result] in Hread.
      destruct r0 as [v|e0]; cbn [rbind] in Hread.
      - unfold lift. rewrite Hread. reflexivity.
      - injection Hread as ->. reflexivity. }
  unfold read_int, balance_call in Hread. cbn [call_result] in Hread.
  destruct r0 as [v|e0]; cbn [rbind] in Hread; [|discriminate Hread].
  assert (Hread' : read_int int16 (balance_call a call_data (Ok v)) = Ok before).
  { unfold read_int, balance_call. cbn [call_result rbind]. exact Hread. }
  unfold lift at 1. rewrite Hread.
  unfold bind at 1, print at 1, format at 1. cbn [line_int].
  destruct (str_int before) as [[]|e] eqn:Hpr.
  2:{ exists (Raise e), n0, [balance_call a call_data (Ok v)], [].
      split; [reflexivity|]. eapply mb_before_unprintable; eauto. }
  cbn [w_node w_trace w_out app].
  unfold bind at 1, lift at 1.
  destruct (int_to_storage_word (arg_amount a)) as [desired_word|e] eqn:Hdw.
  2:{ exists (Raise e), n0, [balance_call a call_data (Ok v)], [out_before before].
      split; [reflexivity|].
      eapply mb_bad_amount; eauto. }
  unfold bind at 1.
  destruct (probe_loop_sound a call_data desired_word
              (range (arg_max_slot a + 1))
              (World n0 [balance_call a call_data (Ok v)] [out_before before])
              (amount_printable _ _ Hdw))
    as (r & n' & t & o & Hrun & Hl).
  unfold balance_call in Hrun. rewrite Hrun.
  cbn [w_node w_trace w_out app] in *.
  destruct r as [[c|]|e].
  - exists (Ok c), n', (balance_call a call_data (Ok v) :: t), (out_before before :: o).
    split; [reflexivity|]. eapply mb_returned; eauto.
  - unfold bind, print, format, ret. cbn [line_int].
    destruct (str_int (arg_max_slot a)) as [[]|e] eqn:Hms.
    + exists (Ok 1), n', (balance_call a call_data (Ok v) :: t),
        (out_before before :: o ++ [err_not_found (arg_max_slot a)]).
      split; [reflexivity|]. eapply mb_exhausted; eauto.
    + exists (Raise e), n', (balance_call a call_data (Ok v) :: t),
        (out_before before :: o).
      split; [reflexivity|]. eapply mb_bound_unprintable; eauto.
  - exists (Raise e), n', (balance_call a call_data (Ok v) :: t), (out_before before :: o).
    split; [reflexivity|]. eapply mb_raised; eauto.
Qed.

(** *** Calls that fail *)

Lemma restored_all_ok a (call_data desired_word : string) (i : Z) t :
  restored keccak256 int16 a call_data desired_word i t ->
  forall (k : nat) c, t !! k = Some c -> is_ok (call_result c) = true.
Proof.
  intros [key old w1 v after w2 _ _ _] k c Hk.
  do 4 (destruct k as [|k]; [injection Hk as <-; reflexivity|]).
  discriminate Hk.
Qed.

Lemma probe_failure_is_last a (call_data desired_word : string) (i : Z)
    r t o (k : nat) c :
  probe_behaviour keccak256 int16 a call_data desired_word i r t o ->
  t !! k = Some c -> is_ok (call_result c) = false ->
  r = Ok (Some 2) /\ length t = S k /\
  exists e, call_result c = Raise e /\
            (o = [err_rpc i e] \/ o = [err_restore i e]).
Proof.
  intros Hb Hk Hc.
  assert (Hok : forall t', restored keccak256 int16 a call_data desired_word i t' ->
                           t' !! k = Some c -> False).
  { intros t' Hres Hk'. rewrite (restored_all_ok _ _ _ _ _ Hres k c Hk') in Hc.
    discriminate Hc. }
  inversion Hb as [e ?|key e ?|key old e ?|key old w1 e ?|key old w1 v e ? ?
                  |key t' ? Hf|key old w1 v after e ? ? ?|t' Hres]; subst.
  - discriminate Hk.
  - destruct k as [|k]; [|discriminate Hk]. injection Hk as <-. eauto 8.
  - destruct k as [|k]; [injection Hk as <-; discriminate Hc|].
    destruct k as [|k]; [|discriminate Hk]. injection Hk as <-. eauto 8.
  - do 2 (destruct k as [|k]; [injection Hk as <-; discriminate Hc|]).
    destruct k as [|k]; [|discriminate Hk]. injection Hk as <-. eauto 8.
  - do 3 (destruct k as [|k]; [injection Hk as <-; discriminate Hc|]).
    discriminate Hk.
  - destruct Hf as [key' old w1 v _ _].
    do 3 (destruct k as [|k]; [injection Hk as <-; discriminate Hc|]).
    discriminate Hk.
  - do 3 (destruct k as [|k]; [injection Hk as <-; discriminate Hc|]).
    destruct k as [|k]; [|discriminate Hk]. injection Hk as <-. eauto 8.
  - destruct (Hok _ Hres Hk).
Qed.

Lemma loop_failure_is_last a (call_data desired_word : string) (l : list Z)
    r t o (k : nat) c :
  loop_behaviour keccak256 int16 a call_data desired_word l r t o ->
  t !! k = Some c -> is_ok (call_result c) = false ->
  r = Ok (Some 2) /\ length t = S k /\
  exists e, call_result c = Raise e /\
            exists i, o = [err_rpc i e] \/ o = [err_restore i e].
Proof.
  intros Hl. revert k.
  induction Hl as [|i l r t o Hb _|i l r t1 t2 o Hres _ IH]; intros k Hk Hc.
  - discriminate Hk.
  - destruct (probe_failure_is_last _ _ _ _ _ _ _ _ _ Hb Hk Hc)
      as (-> & Hlen & e & He & Ho). eauto 8.
  - apply lookup_app_Some in Hk as [Hk|[Hge Hk]].
    + rewrite (restored_all_ok _ _ _ _ _ Hres k c Hk) in Hc. discriminate Hc.
    + destruct (IH _ Hk Hc) as (-> & Hlen & Hrest).
      split; [reflexivity|]. split; [|exact Hrest].
      rewrite length_app, Hlen. lia.
Qed.

(** C6: a call of [rpc] that raises during a run, in the reading, the
    writing or the checking of an index or in the restoring after a
    mismatch, is the last call of the run: nothing is tried again and no
    other index is probed; [main] returns 2, and the last line printed
    reports that exception. *)
Theorem rpc_failure_aborts a (n : node) (k : nat) c :
  w_trace (run keccak256 int16 str_of urlopen a n).2 !! k = Some c ->
  is_ok (call_result c) = false ->
  (run keccak256 int16 str_of urlopen a n).1 = Ok 2 /\
  length (w_trace (run keccak256 int16 str_of urlopen a n).2) = S k /\
  exists e,
    call_result c = Raise e /\
    (last (w_out (run keccak256 int16 str_of urlopen a n).2)
       = Some (err_eth_call e) \/
     exists i,
       last (w_out (run keccak256 int16 str_of urlopen a n).2)
         = Some (err_rpc i e) \/
       last (w_out (run keccak256 int16 str_of urlopen a n).2)
         = Some (err_restore i e)).
Proof.
  destruct (main_sound a n) as (r & n' & t & o & -> & Hm).
  cbn [fst snd w_trace w_out]. intros Hk Hc.
  assert (Hloop : forall call_data desired_word r' t' o' k',
            loop_behaviour keccak256 int16 a call_data desired_word
              (range (arg_max_slot a + 1)) r' t' o' ->
            t' !! k' = Some c ->
            r' = Ok (Some 2) /\ length t' = S k' /\
            exists e, call_result c = Raise e /\
              exists i, o' = [err_rpc i e] \/ o' = [err_restore i e]).
  { intros. eapply loop_failure_is_last; eauto. }
  inversion Hm as [e He|call_data r0 e Hcd Hread|call_data r0 before e Hcd Hread Hdw Hpr
                  |call_data r0 before dw c' t' o' Hcd Hread Hdw Hl Hpr
                  |call_data r0 before dw e t' o' Hcd Hread Hdw Hl Hpr
                  |call_data r0 before dw t' o' Hcd Hread Hdw Hl Hpr Hms
                  |call_data r0 before e Hcd Hread Hpr
                  |call_data r0 before dw e t' o' Hcd Hread Hdw Hl Hpr Hms]; subst.
  - discriminate Hk.
  - destruct k as [|k]; [|discriminate Hk]. injection Hk as <-.
    destruct r0 as [v|e0]; [discriminate Hc|].
    injection Hread as ->. eauto 8.
  - destruct k as [|k]; [|discriminate Hk].
    injection Hk as <-. destruct r0; [discriminate Hc|discriminate Hread].
  - destruct k as [|k];
      [injection Hk as <-; destruct r0; [discriminate Hc|discriminate Hread]|].
    destruct (Hloop _ _ _ _ _ _ Hl Hk) as (Hr & Hlen & e & He & i & Ho).
    injection Hr as ->. cbn [length]. rewrite Hlen.
    split; [reflexivity|]. split; [reflexivity|].
    exists e. split; [exact He|]. right. exists i.
    destruct Ho as [-> | ->]; [left|right]; reflexivity.
  - destruct k as [|k];
      [injection Hk as <-; destruct r0; [discriminate Hc|discriminate Hread]|].
    destruct (Hloop _ _ _ _ _ _ Hl Hk) as (Hr & _). discriminate Hr.
  - destruct k as [|k];
      [injection Hk as <-; destruct r0; [discriminate Hc|discriminate Hread]|].
    destruct (Hloop _ _ _ _ _ _ Hl Hk) as (Hr & _). discriminate Hr.
  - destruct k as [|k]; [|discriminate Hk].
    injection Hk as <-. destruct r0; [discriminate Hc|discriminate Hread].
  - destruct k as [|k];
      [injection Hk as <-; destruct r0; [discriminate Hc|discriminate Hread]|].
    destruct (Hloop _ _ _ _ _ _ Hl Hk) as (Hr & _). discriminate Hr.
Qed.

(** *** The first balance read *)

(** C5: when the first balance read of a run fails, the [eth_call] raising
    or returning what is no integer, [main] returns 2, the exit status is
    2, that call is the only call of the run and no storage write is ever
    issued. *)
Theorem first_read_failure_exits_2 a (n : node) c :
  head (w_trace (run keccak256 int16 str_of urlopen a n).2) = Some c ->
  call_ok int16 c = false ->
  (run keccak256 int16 str_of urlopen a n).1 = Ok 2 /\
  exit_status (run keccak256 int16 str_of urlopen a n).1 = 2 /\
  w_trace (run keccak256 int16 str_of urlopen a n).2 = [c] /\
  call_method c = "eth_call" /\
  Forall (fun c' => is_write c' = false)
    (w_trace (run keccak256 int16 str_of urlopen a n).2).
Proof.
  destruct (main_sound a n) as (r & n' & t & o & -> & Hm).
  cbn [fst snd w_trace w_out]. intros Hc Hfail.
  inversion Hm as [e He|call_data r0 e Hcd Hread|call_data r0 before e Hcd Hread Hdw Hpr
                  |call_data r0 before dw c' t' o' Hcd Hread Hdw Hl Hpr
                  |call_data r0 before dw e t' o' Hcd Hread Hdw Hl Hpr
                  |call_data r0 before dw t' o' Hcd Hread Hdw Hl Hpr Hms
                  |call_data r0 before e Hcd Hread Hpr
                  |call_data r0 before dw e t' o' Hcd Hread Hdw Hl Hpr Hms]; subst;
    try discriminate Hc; injection Hc as <-;
    unfold call_ok in Hfail; cbn [is_balance_read balance_call call_method] in Hfail;
    change (String.eqb "eth_call" "eth_call") with true in Hfail;
    cbn iota in Hfail;
    try (rewrite Hread in Hfail; discriminate Hfail).
  repeat split. repeat constructor.
Qed.

(** *** Addresses of the wrong length *)

(** C4, as amended: when the account argument decodes to a number of bytes
    other than 20, [main] raises the ValueError of [addr_to_bytes32], the
    spec's EncodingError, and the run has made no call and printed no
    line. *)
Theorem bad_account_rejected a (n : node) (b : list byte) :
  hex_to_bytes (arg_account a) = Ok b ->
  length b <> 20%nat ->
  addr_to_bytes32 (arg_account a)
    = Raise (ValueError "address must be 20 bytes") /\
  run keccak256 int16 str_of urlopen a n
    = (Raise (ValueError "address must be 20 bytes"), World n [] []).
Proof.
  intros Hb Hlen.
  assert (Ha : addr_to_bytes32 (arg_account a)
               = Raise (ValueError "address must be 20 bytes")).
  { unfold addr_to_bytes32. rewrite Hb. cbn [rbind].
    destruct (decide (length b = 20%nat)); [contradiction|reflexivity]. }
  split; [exact Ha|].
  unfold run, main, bind, lift, encode_balance_of. rewrite Ha. reflexivity.
Qed.

(** *** Negative and oversized numbers *)

Lemma negative_amount_raises (v : Z) :
  v < 0 ->
  int_to_storage_word v = Raise (ValueError "amount must be non-negative").
Proof.
  intros Hv. unfold int_to_storage_word.
  destruct (Z.ltb_spec v 0); [reflexivity|lia].
Qed.

Lemma negative_index_raises (i : Z) :
  i < 0 ->
  int_to_bytes32 i = Raise (ValueError "slot index must be non-negative").
Proof.
  intros Hi. unfold int_to_bytes32.
  destruct (Z.ltb_spec i 0); [reflexivity|lia].
Qed.

Lemma oversized_raises (v : Z) :
  2 ^ 256 <= v ->
  int_to_storage_word v = Raise (OverflowError "int too big to convert").
Proof.
  intros Hv. unfold int_to_storage_word, to_bytes.
  destruct (Z.ltb_spec v 0); [lia|].
  change (8 * Z.of_nat 32) with 256.
  destruct (Z.leb_spec (2 ^ 256) v); [reflexivity|lia].
Qed.

(** *** Storage keys *)

Lemma zpad32_address (b : list byte) :
  length b = 20%nat -> zpad32 b = replicate 12 Byte.x00 ++ b.
Proof. intros Hb. unfold zpad32. rewrite Hb. reflexivity. Qed.

Lemma int_to_bytes32_ok (i : Z) :
  0 <= i < 2 ^ 256 -> int_to_bytes32 i = Ok (be_bytes 32 i).
Proof.
  intros Hi. unfold int_to_bytes32.
  destruct (Z.ltb_spec i 0); [lia|]. apply to_bytes_ok. exact Hi.
Qed.

(** C2, as amended: for an account that decodes to 20 bytes and an index
    from 0 up to 2^256 - 1, the storage key is "0x" followed by the
    hexadecimal digits of the Keccak-256 digest of 64 bytes: 12 zero
    bytes, the 20 bytes of the address, and the 32 bytes whose big-endian
    reading is the index. *)
Theorem storage_key_derivation (account : string) (b : list byte) (i : Z) :
  hex_to_bytes account = Ok b ->
  length b = 20%nat ->
  0 <= i < 2 ^ 256 ->
  exists word,
    length word = 32%nat /\
    from_bytes word = i /\
    length (replicate 12 Byte.x00 ++ b ++ word) = 64%nat /\
    storage_key_of keccak256 account i
      = Ok ("0x" +:+ hex (keccak256 (replicate 12 Byte.x00 ++ b ++ word))) /\
    hex_to_bytes ("0x" +:+ hex (keccak256 (replicate 12 Byte.x00 ++ b ++ word)))
      = Ok (keccak256 (replicate 12 Byte.x00 ++ b ++ word)).
Proof.
  intros Hb Hlen Hi. exists (be_bytes 32 i).
  split; [apply length_be_bytes|].
  split; [apply from_bytes_be_bytes; exact Hi|].
  split; [rewrite !length_app, length_replicate, Hlen, length_be_bytes; reflexivity|].
  split; [|apply hex_to_bytes_of_hex].
  unfold storage_key_of, addr_to_bytes32. rewrite Hb. cbn [rbind].
  destruct (decide (length b = 20%nat)); [|contradiction].
  cbn [rbind]. rewrite (int_to_bytes32_ok i Hi). cbn [rbind].
  rewrite (zpad32_address b Hlen), <- app_assoc. reflexivity.
Qed.

(** *** The indices of the loop *)

Lemma range_nat (k : nat) : range (Z.of_nat k) = Z.of_nat <$> seq 0 k.
Proof. unfold range. rewrite Nat2Z.id. reflexivity. Qed.

Lemma range_split (m : Z) (l1 l2 : list Z) (i : Z) :
  range m = l1 ++ i :: l2 ->
  l1 = range (Z.of_nat (length l1)) /\ i = Z.of_nat (length l1) /\
  Z.of_nat (length l1) < m.
Proof.
  intros Hsplit.
  assert (Hi : range m !! length l1 = Some i)
    by (rewrite Hsplit; apply list_lookup_middle; reflexivity).
  unfold range in Hi. rewrite list_lookup_fmap in Hi.
  destruct (seq 0 (Z.to_nat m) !! length l1) as [j|] eqn:Hj;
    [|discriminate Hi].
  apply lookup_seq in Hj as [-> Hlt]. injection Hi as Hi.
  split; [|split; lia].
  rewrite range_nat.
  rewrite <- (take_app_length l1 (i :: l2)) at 1. rewrite <- Hsplit.
  unfold range. rewrite <- fmap_take, take_seq. f_equal. f_equal. lia.
Qed.

Lemma range_nonpositive (m : Z) : m <= 0 -> range m = [].
Proof.
intros Hm. unfold range. replace (Z.to_nat m) with O by lia. reflexivity.
Qed.

Lemma range_bounds (m i : Z) : i ∈ range m -> 0 <= i < m.
Proof.
  unfold range. intros (k & -> & Hk)%list_elem_of_fmap.
  apply elem_of_seq in Hk. lia.
Qed.

Lemma storage_key_of_ok (account call_data : string) (i : Z) :
  encode_balance_of keccak256 account = Ok call_data ->
  0 <= i < 2 ^ 256 ->
  is_ok (storage_key_of keccak256 account i) = true.
Proof.
  unfold encode_balance_of, storage_key_of. intros Hcd Hi.
  destruct (addr_to_bytes32 account) as [ab|e]; [|discriminate Hcd].
  cbn [rbind]. rewrite (int_to_bytes32_ok i Hi). reflexivity.
Qed.

(** *** The balances a run reads *)

Lemma balance_reads_app t1 t2 :
  balance_reads int16 (t1 ++ t2)
  = balance_reads int16 t1 ++ balance_reads int16 t2.
Proof.
  unfold balance_reads. rewrite List.filter_app, fmap_app. reflexivity.
Qed.

Lemma balance_reads_restored a (call_data desired_word : string) (i : Z) t :
  restored keccak256 int16 a call_data desired_word i t ->
  forallb (call_ok int16) t = true /\
  exists after, after <> arg_amount a /\ balance_reads int16 t = [Ok after].
Proof.
  intros [key old w1 v after w2 _ Hv Hne]. split.
  - unfold call_ok, read_int. cbn. rewrite Hv. reflexivity.
  - exists after. split; [exact Hne|].
    unfold balance_reads, read_int. cbn. rewrite Hv. reflexivity.
Qed.

Lemma balance_reads_found a (call_data desired_word : string) (i : Z) t :
  found keccak256 int16 a call_data desired_word i t ->
  balance_reads int16 t = [Ok (arg_amount a)] /\
  exists key ack,
    storage_key_of keccak256 (arg_account a) i = Ok key /\
    List.filter is_write t = [write_call a key (PStr desired_word) (Ok ack)].
Proof.
  intros [key old w1 v Hkey Hv]. split.
  - unfold balance_reads, read_int. cbn. rewrite Hv. reflexivity.
  - exists key, w1. split; [exact Hkey|reflexivity].
Qed.

(** What keeps the loop from going on, a run without failure apart: an
    index whose key cannot be derived, or a match. *)
Lemma loop_without_failure a (call_data desired_word : string) (l : list Z)
    r t o :
  loop_behaviour keccak256 int16 a call_data desired_word l r t o ->
  forallb (call_ok int16) t = true ->
  exists l1 blocks rest,
    Forall2 (restored keccak256 int16 a call_data desired_word) l1 blocks /\
    t = concat blocks ++ rest /\
    ((r = Ok None /\ l1 = l /\ rest = [] /\ o = []) \/
     (exists e i l2,
        r = Raise e /\ l = l1 ++ i :: l2 /\ rest = [] /\ o = [] /\
        storage_key_of keccak256 (arg_account a) i = Raise e) \/
     (exists i l2 key,
        r = Ok (Some 0) /\ l = l1 ++ i :: l2 /\
        found keccak256 int16 a call_data desired_word i rest /\
        storage_key_of keccak256 (arg_account a) i = Ok key /\
        o = [out_found i; out_key key; out_after (arg_amount a)])).
Proof.
  intros Hl.
  induction Hl as [|i l r t o Hb Hr|i l r t1 t2 o Hres _ IH]; intros Hok.
  - exists [], [], []. split; [constructor|]. split; [reflexivity|].
    left. repeat split.
  - exists [], [], t. split; [constructor|]. split; [reflexivity|].
    inversion Hb as [e ?|key e ?|key old e ?|key old w1 e ?|key old w1 v e ? Hv
                    |key t' ? Hf|key old w1 v after e ? ? ?|t' Hres]; subst;
      try (unfold call_ok, read_int in Hok; cbn in Hok;
           repeat match goal with
                  | H : int16 _ = _ |- _ => rewrite H in Hok
                  end;
           cbn in Hok; discriminate Hok).
    + right. left. exists e, i, l. repeat split; assumption.
    + right. right. exists i, l, key. repeat split; assumption.
    + congruence.
  - rewrite forallb_app in Hok. apply andb_prop in Hok as [_ Hok2].
    destruct (IH Hok2) as (l1 & blocks & rest & Hblocks & -> & Hcase).
    exists (i :: l1), (t1 :: blocks), rest.
    split; [by constructor|].
    split; [cbn [concat]; rewrite app_assoc; reflexivity|].
    destruct Hcase as [(-> & -> & -> & ->)
                      |[(e & j & l2 & -> & -> & -> & -> & Hkey)
                       |(j & l2 & key & -> & -> & Hf & Hkey & ->)]].
    + left. repeat split.
    + right. left. exists e, j, l2. repeat split. exact Hkey.
    + right. right. exists j, l2, key. repeat split; assumption.
Qed.

Lemma balance_reads_blocks a (call_data desired_word : string)
    (l : list Z) (blocks : list (list call)) :
  Forall2 (restored keccak256 int16 a call_data desired_word) l blocks ->
  length (balance_reads int16 (concat blocks)) = length l /\
  Ok (arg_amount a) ∉ balance_reads int16 (concat blocks).
Proof.
  induction 1 as [|i t l blocks Hres _ [IHlen IHnot]].
  - split; [reflexivity|]. cbn. apply not_elem_of_nil.
  - destruct (balance_reads_restored _ _ _ _ _ Hres) as (_ & after & Hne & Ht).
    cbn [concat]. rewrite balance_reads_app, Ht. split.
    + cbn. rewrite IHlen. reflexivity.
    + cbn. apply not_elem_of_cons. split; [congruence|exact IHnot].
Qed.

Lemma balance_reads_cons a (call_data : string) (r : result value) t :
  balance_reads int16 (balance_call a call_data r :: t)
  = read_int int16 (balance_call a call_data r) :: balance_reads int16 t.
Proof. reflexivity. Qed.

Lemma call_ok_balance_call a (call_data : string) (r : result value) :
  call_ok int16 (balance_call a call_data r)
  = is_ok (read_int int16 (balance_call a call_data r)).
Proof. reflexivity. Qed.

Lemma storage_word_ok (v : Z) :
  0 <= v < 2 ^ 256 -> is_ok (int_to_storage_word v) = true.
Proof.
  intros Hv. destruct (storage_word_roundtrip v Hv) as (w' & _ & -> & _).
  reflexivity.
Qed.

(** *** The search *)

(** C7: in a run where no call fails and no balance read after a write
    gives the amount, the exit status is 1, and the calls after the first
    balance read are, index after index in increasing order, the four
    calls of an index probed and restored: the read of the key, the write
    of the desired word, the balance read, and the write of the word first
    read back to the same key.  When [main] returns 1 these are all the
    indices from 0 to max-slot, and it does return 1 once the arguments
    can be encoded and the two integers it prints, the first balance and
    max-slot, can be printed; otherwise an exception leaves [main], and
    the exit status is 1 as well. *)
Theorem exhausted_search a (n : node) :
  forallb (call_ok int16)
    (w_trace (run keccak256 int16 str_of urlopen a n).2) = true ->
  Ok (arg_amount a)
    ∉ tail (balance_reads int16
              (w_trace (run keccak256 int16 str_of urlopen a n).2)) ->
  exit_status (run keccak256 int16 str_of urlopen a n).1 = 1 /\
  exists (call_data desired_word : string) (probed : list Z)
         (blocks : list (list call)),
    Forall2 (restored keccak256 int16 a call_data desired_word)
      probed blocks /\
    tail (w_trace (run keccak256 int16 str_of urlopen a n).2)
      = concat blocks /\
    probed `prefix_of` range (arg_max_slot a + 1) /\
    ((run keccak256 int16 str_of urlopen a n).1 = Ok 1 ->
     probed = range (arg_max_slot a + 1) /\
     last (w_out (run keccak256 int16 str_of urlopen a n).2)
       = Some (err_not_found (arg_max_slot a))) /\
    (is_ok (encode_balance_of keccak256 (arg_account a)) = true ->
     0 <= arg_amount a < 2 ^ 256 ->
     arg_max_slot a < 2 ^ 256 ->
     (forall before,
        head (balance_reads int16
                (w_trace (run keccak256 int16 str_of urlopen a n).2))
          = Some (Ok before) ->
        str_int before = Ok tt) ->
     str_int (arg_max_slot a) = Ok tt ->
     (run keccak256 int16 str_of urlopen a n).1 = Ok 1).
Proof.
  destruct (main_sound a n) as (r & n' & t & o & -> & Hm).
  cbn [fst snd w_trace w_out]. intros Hok Hnone.
  inversion Hm as [e He|call_data r0 e Hcd Hread|call_data r0 before e Hcd Hread Hdw Hpr
                  |call_data r0 before dw c' t' o' Hcd Hread Hdw Hl Hpr
                  |call_data r0 before dw e t' o' Hcd Hread Hdw Hl Hpr
                  |call_data r0 before dw t' o' Hcd Hread Hdw Hl Hpr Hms
                  |call_data r0 before e Hcd Hread Hpr
                  |call_data r0 before dw e t' o' Hcd Hread Hdw Hl Hpr Hms]; subst.
  - split; [reflexivity|]. exists "", "", [], [].
    split; [constructor|]. split; [reflexivity|].
    split; [apply prefix_nil|]. split; [discriminate|].
    rewrite He. discriminate.
  - cbn [forallb] in Hok. rewrite call_ok_balance_call, Hread in Hok.
    discriminate Hok.
  - split; [reflexivity|]. exists call_data, "", [], [].
    split; [constructor|]. split; [reflexivity|].
    split; [apply prefix_nil|]. split; [discriminate|].
    intros _ Hamount _.
    pose proof (storage_word_ok _ Hamount) as Hgood.
    rewrite Hdw in Hgood. discriminate Hgood.
  - cbn [forallb] in Hok. apply andb_prop in Hok as [_ Hok].
    rewrite balance_reads_cons in Hnone. cbn [tail] in Hnone.
    destruct (loop_without_failure _ _ _ _ _ _ _ Hl Hok)
      as (l1 & blocks & rest & Hblocks & -> & Hcase).
    destruct Hcase as [(Hr & _)|[(e & j & l2 & Hr & _)
                                |(j & l2 & key & _ & _ & Hf & _)]];
      try discriminate Hr.
    destruct (balance_reads_found _ _ _ _ _ Hf) as [Hreads _].
    exfalso. apply Hnone. rewrite balance_reads_app, Hreads.
    apply elem_of_app. right. apply list_elem_of_singleton. reflexivity.
  - cbn [forallb] in Hok. apply andb_prop in Hok as [_ Hok].
    destruct (loop_without_failure _ _ _ _ _ _ _ Hl Hok)
      as (l1 & blocks & rest & Hblocks & -> & Hcase).
    destruct Hcase as [(Hr & _)|[(e' & j & l2 & Hr & Hsplit & -> & _ & Hkey)
                                |(j & l2 & key & Hr & _)]];
      try discriminate Hr.
    split; [reflexivity|]. exists call_data, dw, l1, blocks.
    split; [exact Hblocks|]. split; [cbn [tail]; apply app_nil_r|].
    split; [exists (j :: l2); exact Hsplit|]. split; [discriminate|].
    intros _ _ Hmax. exfalso.
    assert (Hj : 0 <= j < arg_max_slot a + 1).
    { apply range_bounds. rewrite Hsplit. apply elem_of_app. right. left. }
    pose proof (storage_key_of_ok (arg_account a) call_data j Hcd) as Hgood.
    rewrite Hkey in Hgood. discriminate Hgood. lia.
  - cbn [forallb] in Hok. apply andb_prop in Hok as [_ Hok].
    destruct (loop_without_failure _ _ _ _ _ _ _ Hl Hok)
      as (l1 & blocks & rest & Hblocks & -> & Hcase).
    destruct Hcase as [(_ & -> & -> & ->)|[(e' & j & l2 & Hr & _)
                                          |(j & l2 & key & Hr & _)]];
      try discriminate Hr.
    split; [reflexivity|].
    exists call_data, dw, (range (arg_max_slot a + 1)), blocks.
    split; [exact Hblocks|]. split; [cbn [tail]; apply app_nil_r|].
    split; [reflexivity|]. split; [|reflexivity].
    intros _. split; reflexivity.
  - split; [reflexivity|]. exists call_data, "", [], [].
    split; [constructor|]. split; [reflexivity|].
    split; [apply prefix_nil|]. split; [discriminate|].
    intros _ _ _ Hfirst _. exfalso.
    rewrite balance_reads_cons in Hfirst. cbn [head] in Hfirst.
    rewrite Hread in Hfirst. rewrite (Hfirst before eq_refl) in Hpr.
    discriminate Hpr.
  - cbn [forallb] in Hok. apply andb_prop in Hok as [_ Hok].
    destruct (loop_without_failure _ _ _ _ _ _ _ Hl Hok)
      as (l1 & blocks & rest & Hblocks & -> & Hcase).
    destruct Hcase as [(_ & -> & -> & ->)|[(e' & j & l2 & Hr & _)
                                          |(j & l2 & key & Hr & _)]];
      try discriminate Hr.
    split; [reflexivity|].
    exists call_data, dw, (range (arg_max_slot a + 1)), blocks.
    split; [exact Hblocks|]. split; [cbn [tail]; apply app_nil_r|].
    split; [reflexivity|]. split; [discriminate|].
    intros _ _ _ _ Hbound. rewrite Hbound in Hms. discriminate Hms.
Qed.

Lemma matching_read_position a (call_data desired_word : string)
    (l1 : list Z) (blocks : list (list call)) (rest : list call) (k : nat) :
  Forall2 (restored keccak256 int16 a call_data desired_word) l1 blocks ->
  balance_reads int16 (concat blocks ++ rest) !! k = Some (Ok (arg_amount a)) ->
  (length l1 <= k)%nat /\
  balance_reads int16 rest !! (k - length l1)%nat = Some (Ok (arg_amount a)).
Proof.
  intros Hblocks Hk.
  destruct (balance_reads_blocks _ _ _ _ _ Hblocks) as [Hlen Hnot].
  rewrite balance_reads_app in Hk.
  apply lookup_app_Some in Hk as [Hk|[Hge Hk]].
  - exfalso. apply Hnot. apply list_elem_of_lookup. eauto.
  - rewrite Hlen in Hge, Hk. split; assumption.
Qed.

Lemma last_write_of_found a (call_data desired_word : string) (i : Z)
    (head_call : call) (body final : list call) :
  is_write head_call = false ->
  found keccak256 int16 a call_data desired_word i final ->
  exists key ack,
    storage_key_of keccak256 (arg_account a) i = Ok key /\
    last (List.filter is_write (head_call :: body ++ final))
      = Some (write_call a key (PStr desired_word) (Ok ack)).
Proof.
  intros Hhead Hf.
  destruct (balance_reads_found _ _ _ _ _ Hf) as (_ & key & ack & Hkey & Hw).
  exists key, ack. split; [exact Hkey|].
  cbn [List.filter]. rewrite Hhead, List.filter_app, Hw.
  apply last_snoc.
Qed.

(** C1: in a run where no call fails and the balance read after the write
    at index [k] gives the amount, [main] returns 0 and [k] is at most
    max-slot.  The calls of the run are the first balance read, then for
    the indices 0 to [k - 1] in increasing order the four calls of an
    index probed and restored, then for index [k] the read of its key, the
    write of the desired word at its key and the balance read that gives
    the amount.  That write is the last storage write of the run, so the
    key of index [k] is left with the desired word.  The lines printed are
    the balance before, the index [k], its key and the balance after. *)
Theorem slot_found a (n : node) (k : nat) :
  forallb (call_ok int16)
    (w_trace (run keccak256 int16 str_of urlopen a n).2) = true ->
  tail (balance_reads int16
          (w_trace (run keccak256 int16 str_of urlopen a n).2)) !! k
    = Some (Ok (arg_amount a)) ->
  (run keccak256 int16 str_of urlopen a n).1 = Ok 0 /\
  exit_status (run keccak256 int16 str_of urlopen a n).1 = 0 /\
  0 <= Z.of_nat k <= arg_max_slot a /\
  exists (call_data desired_word key : string) (first ack : value)
         (before : Z) (blocks : list (list call)) (final : list call),
    encode_balance_of keccak256 (arg_account a) = Ok call_data /\
    int_to_storage_word (arg_amount a) = Ok desired_word /\
    storage_key_of keccak256 (arg_account a) (Z.of_nat k) = Ok key /\
    Forall2 (restored keccak256 int16 a call_data desired_word)
      (range (Z.of_nat k)) blocks /\
    found keccak256 int16 a call_data desired_word (Z.of_nat k) final /\
    w_trace (run keccak256 int16 str_of urlopen a n).2
      = balance_call a call_data (Ok first) :: concat blocks ++ final /\
    last (List.filter is_write
            (w_trace (run keccak256 int16 str_of urlopen a n).2))
      = Some (write_call a key (PStr desired_word) (Ok ack)) /\
    w_out (run keccak256 int16 str_of urlopen a n).2
      = [out_before before; out_found (Z.of_nat k); out_key key;
         out_after (arg_amount a)].
Proof.
  destruct (main_sound a n) as (r & n' & t & o & -> & Hm).
  cbn [fst snd w_trace w_out]. intros Hok Hmatch.
  inversion Hm as [e He|call_data r0 e Hcd Hread|call_data r0 before e Hcd Hread Hdw Hpr
                  |call_data r0 before dw c' t' o' Hcd Hread Hdw Hl Hpr
                  |call_data r0 before dw e t' o' Hcd Hread Hdw Hl Hpr
                  |call_data r0 before dw t' o' Hcd Hread Hdw Hl Hpr Hms
                  |call_data r0 before e Hcd Hread Hpr
                  |call_data r0 before dw e t' o' Hcd Hread Hdw Hl Hpr Hms]; subst;
    try discriminate Hmatch;
    cbn [forallb] in Hok; apply andb_prop in Hok as [_ Hok];
    rewrite balance_reads_cons in Hmatch; cbn [tail] in Hmatch;
    destruct (loop_without_failure _ _ _ _ _ _ _ Hl Hok)
      as (l1 & blocks & rest & Hblocks & -> & Hcase);
    destruct (matching_read_position _ _ _ _ _ _ _ Hblocks Hmatch)
      as [Hge Hrest];
    destruct Hcase as [(Hr & _ & -> & _)|[(e' & j & l2 & Hr & _ & -> & _)
                                         |(j & l2 & key & Hr & Hsplit & Hf & Hkey & ->)]];
    try discriminate Hrest; try discriminate Hr.
  injection Hr as ->.
  destruct (balance_reads_found _ _ _ _ _ Hf) as [Hreads _].
  rewrite Hreads in Hrest.
  assert (Hk : k = length l1).
  { destruct (k - length l1)%nat as [|d] eqn:Hd; [lia|discriminate Hrest]. }
  destruct (range_split _ _ _ _ Hsplit) as (Hl1 & Hj & Hlt).
  rewrite <- Hk in Hl1, Hj, Hlt. subst j.
  destruct r0 as [first|e0]; [|discriminate Hread].
  destruct (last_write_of_found a call_data dw (Z.of_nat k)
              (balance_call a call_data (Ok first)) (concat blocks) rest
              eq_refl Hf) as (key' & ack & Hkey' & Hlast).
  assert (key' = key) as -> by congruence.
  split; [reflexivity|]. split; [reflexivity|]. split; [lia|].
  exists call_data, dw, key, first, ack, before, blocks, rest.
  rewrite <- Hl1. repeat split; assumption.
Qed.

End Facts.


(** ** The scenarios of the specification, run on the development node *)

(** Slot 3 is the balances slot and max-slot is 5: the run returns 0, prints
    index 3, leaves the desired word at the key of index 3 and nothing at the
    keys of the indices 0, 1 and 2 but the words found there. *)
Example scenario_slot_3 :
  let r := Mock.run Mock.scenario (Mock.node_with_slot 3 100) in
  r.1 = Ok 0 /\
  w_out r.2
    = [out_before 0; out_found 3; out_key (Mock.key 3); out_after 1000] /\
  Mock.word_at (w_node r.2) (Mock.key 3)
    = "0x00000000000000000000000000000000000000000000000000000000000003e8" /\
  Mock.word_at (w_node r.2) <$> [Mock.key 0; Mock.key 1; Mock.key 2]
    = [Mock.zero_word; Mock.zero_word; Mock.zero_word] /\
  List.filter is_write (w_trace r.2)
    = [write_call Mock.scenario (Mock.key 0) (PStr "0x00000000000000000000000000000000000000000000000000000000000003e8") (Ok "true");
       write_call Mock.scenario (Mock.key 0) (PJson Mock.zero_word) (Ok "true");
       write_call Mock.scenario (Mock.key 1) (PStr "0x00000000000000000000000000000000000000000000000000000000000003e8") (Ok "true");
       write_call Mock.scenario (Mock.key 1) (PJson Mock.zero_word) (Ok "true");
       write_call Mock.scenario (Mock.key 2) (PStr "0x00000000000000000000000000000000000000000000000000000000000003e8") (Ok "true");
       write_call Mock.scenario (Mock.key 2) (PJson Mock.zero_word) (Ok "true");
       write_call Mock.scenario (Mock.key 3) (PStr "0x00000000000000000000000000000000000000000000000000000000000003e8") (Ok "true")].
Proof. vm_compute. repeat split. Qed.

(** No slot up to max-slot 5 is the balances slot: the run returns 1 and the
    storage of the node is, key by key, what it was. *)
Example scenario_no_slot :
  let r := Mock.run Mock.scenario (Mock.node_with_slot 9 100) in
  r.1 = Ok 1 /\
  Mock.word_at (w_node r.2) <$> (Mock.key <$> [0; 1; 2; 3; 4; 5])
    = Mock.word_at (Mock.node_with_slot 9 100) <$> (Mock.key <$> [0; 1; 2; 3; 4; 5]).
Proof. vm_compute. repeat split. Qed.

(** ** Instances of the theorems *)

Lemma slot_found_witness :
  (Mock.run Mock.scenario (Mock.node_with_slot 3 100)).1 = Ok 0 /\
  0 <= Z.of_nat 3 <= arg_max_slot Mock.scenario.
Proof.
  destruct (slot_found Mock.digest Mock.int16 Mock.str_of Mock.urlopen
              Mock.scenario (Mock.node_with_slot 3 100) 3)
    as (Hr & _ & Hk & _).
  - vm_compute. reflexivity.
  - vm_compute. reflexivity.
  - split; assumption.
Defined.

Lemma storage_key_derivation_witness :
  exists word,
    length word = 32%nat /\
    from_bytes word = 3 /\
    length (replicate 12 Byte.x00 ++ Mock.account_bytes ++ word) = 64%nat /\
    storage_key_of Mock.digest Mock.account 3
      = Ok ("0x" +:+ hex (Mock.digest
              (replicate 12 Byte.x00 ++ Mock.account_bytes ++ word))) /\
    hex_to_bytes ("0x" +:+ hex (Mock.digest
              (replicate 12 Byte.x00 ++ Mock.account_bytes ++ word)))
      = Ok (Mock.digest (replicate 12 Byte.x00 ++ Mock.account_bytes ++ word)).
Proof.
  apply (storage_key_derivation Mock.digest Mock.account Mock.account_bytes 3).
  - vm_compute. reflexivity.
  - reflexivity.
  - lia.
Defined.

(** The derivation raises at the first index that does not fit in 32 bytes,
    for an account of 20 bytes. *)
Lemma storage_key_overflow :
  hex_to_bytes Mock.account = Ok Mock.account_bytes /\
  length Mock.account_bytes = 20%nat /\
  0 <= 2 ^ 256 /\
  storage_key_of Mock.digest Mock.account (2 ^ 256)
    = Raise (OverflowError "int too big to convert").
Proof.
  split; [vm_compute; reflexivity|]. split; [reflexivity|].
  split; [lia|]. vm_compute. reflexivity.
Qed.

Lemma bad_account_rejected_witness :
  addr_to_bytes32 "0x1234" = Raise (ValueError "address must be 20 bytes") /\
  Mock.run (Args Mock.url Mock.token "0x1234" 1000 5)
    (Mock.node_with_slot 3 100)
    = (Raise (ValueError "address must be 20 bytes"),
       World (Mock.node_with_slot 3 100) [] []).
Proof.
  apply (bad_account_rejected Mock.digest Mock.int16 Mock.str_of Mock.urlopen
           (Args Mock.url Mock.token "0x1234" 1000 5)
           (Mock.node_with_slot 3 100) [Byte.x12; Byte.x34]).
  - vm_compute. reflexivity.
  - simpl. lia.
Defined.

(** A token argument of one byte is not refused: the run goes to the
    endpoint with it and ends with status 1. *)
Lemma short_token_not_rejected :
  let r := Mock.run (Args Mock.url "0x12" Mock.account 1 0)
             (Mock.node_with_slot 9 100) in
  hex_to_bytes "0x12" = Ok [Byte.x12] /\
  r.1 = Ok 1 /\
  call_params <$> head (w_trace r.2)
    = Some [PCall "0x12"
              "0x00000000000000000000000000000000f39fd6e51aad88f6f4ce6ab8827279cfffb92266";
            PStr "latest"] /\
  length (w_trace r.2) = 5%nat.
Proof. vm_compute. repeat split. Qed.

Lemma first_read_failure_exits_2_witness :
  (Mock.run Mock.scenario (Mock.node_with_slot 3 0)).1 = Ok 2 /\
  Forall (fun c => is_write c = false)
    (w_trace (Mock.run Mock.scenario (Mock.node_with_slot 3 0)).2).
Proof.
  edestruct (first_read_failure_exits_2 Mock.digest Mock.int16 Mock.str_of
               Mock.urlopen Mock.scenario (Mock.node_with_slot 3 0))
    as (Hr & _ & _ & _ & Hw).
  - vm_compute. reflexivity.
  - vm_compute. reflexivity.
  - split; assumption.
Defined.

Lemma rpc_failure_aborts_witness :
  (Mock.run Mock.scenario (Mock.node_with_slot 3 4)).1 = Ok 2 /\
  length (w_trace (Mock.run Mock.scenario (Mock.node_with_slot 3 4)).2) = 5%nat.
Proof.
  edestruct (rpc_failure_aborts Mock.digest Mock.int16 Mock.str_of
               Mock.urlopen Mock.scenario (Mock.node_with_slot 3 4) 4)
    as (Hr & Hlen & _).
  - vm_compute. reflexivity.
  - vm_compute. reflexivity.
  - split; assumption.
Defined.

Lemma exhausted_search_witness :
  exit_status (Mock.run Mock.scenario (Mock.node_with_slot 9 100)).1 = 1 /\
  (Mock.run Mock.scenario (Mock.node_with_slot 9 100)).1 = Ok 1.
Proof.
  destruct (exhausted_search Mock.digest Mock.int16 Mock.str_of Mock.urlopen
              Mock.scenario (Mock.node_with_slot 9 100))
    as (Hr & cd & dw & probed & blocks & _ & _ & _ & _ & Hone).
  - vm_compute. reflexivity.
  - apply (bool_decide_unpack _). vm_compute. exact I.
  - split; [exact Hr|]. apply Hone.
    + vm_compute. reflexivity.
    + simpl. lia.
    + simpl. lia.
    + intros before Hb. vm_compute in Hb. injection Hb as <-.
      vm_compute. reflexivity.
    + vm_compute. reflexivity.
Defined.



(** * Further properties of the encoders *)

(** ** Padding *)

Lemma from_bytes_app (b1 b2 : list byte) :
  from_bytes (b1 ++ b2)
  = fold_left (fun acc x => 256 * acc + Z_of_byte x) b2 (from_bytes b1).
Proof. unfold from_bytes. apply fold_left_app. Qed.

Lemma from_bytes_zeros (n : nat) : from_bytes (replicate n Byte.x00) = 0.
Proof.
  induction n as [|n IH]; [reflexivity|].
  change (replicate (S n) Byte.x00) with ([Byte.x00] ++ replicate n Byte.x00).
  rewrite from_bytes_app. exact IH.
Qed.

(** X1: [zpad32] never shortens its argument: the result has 32 bytes, or
    the length of the argument when that is more, it ends with the argument,
    and its big-endian reading is that of the argument. *)
Theorem zpad32_value (b : list byte) :
  length (zpad32 b) = (32 `max` length b)%nat /\
  drop (length (zpad32 b) - length b) (zpad32 b) = b /\
  from_bytes (zpad32 b) = from_bytes b.
Proof.
  unfold zpad32. split; [|split].
  - rewrite length_app, length_replicate. lia.
  - rewrite length_app, length_replicate.
    replace (32 - length b + length b - length b)%nat
      with (length (replicate (32 - length b) Byte.x00))
      by (rewrite length_replicate; lia).
    apply drop_app_length.
  - rewrite from_bytes_app, from_bytes_zeros. reflexivity.
Qed.

(** ** Hexadecimal text *)

Lemma length_bytes_to_hex (b : list byte) :
  String.length (bytes_to_hex b) = (2 + 2 * length b)%nat.
Proof.
  unfold bytes_to_hex.
  change ("0x" +:+ hex b) with (String "0" (String "x" (hex b))).
  cbn [String.length]. rewrite length_hex. reflexivity.
Qed.

(** X2: [hex_to_bytes] undoes [bytes_to_hex]: the text of any bytes has two
    characters for "0x" and two for each byte, and decodes to those bytes. *)
Theorem hex_roundtrip (b : list byte) :
  hex_to_bytes (bytes_to_hex b) = Ok b /\
  String.length (bytes_to_hex b) = (2 + 2 * length b)%nat.
Proof.
  split; [apply hex_to_bytes_of_hex|apply length_bytes_to_hex].
Qed.

Lemma fromhex_raises (s : string) (e : exn) :
  fromhex s = Raise e -> e = fromhex_error.
Proof.
  remember (String.length s) as n eqn:Hn.
  revert s Hn. induction (lt_wf n) as [n _ IH]. intros s -> He.
  destruct s as [|c s]; [discriminate He|]. cbn [fromhex] in He.
  destruct (is_c_space c).
  { eapply (IH (String.length s)); [simpl; lia|reflexivity|exact He]. }
  destruct (digit_value c) as [top|]; [|congruence].
  destruct s as [|d s]; [congruence|].
  destruct (digit_value d) as [bot|]; [|congruence].
  destruct (fromhex s) as [bs|e'] eqn:Hs; [discriminate He|].
  cbn [rbind] in He. injection He as <-.
  eapply (IH (String.length s)); [simpl; lia|reflexivity|exact Hs].
Qed.

Lemma addr_to_bytes32_ok (addr : string) (p : list byte) :
  addr_to_bytes32 addr = Ok p ->
  exists b,
    hex_to_bytes addr = Ok b /\ length b = 20%nat /\
    p = replicate 12 Byte.x00 ++ b.
Proof.
  unfold addr_to_bytes32.
  destruct (hex_to_bytes addr) as [b|e]; cbn [rbind]; [|discriminate].
  destruct (decide (length b = 20%nat)) as [Hlen|Hlen]; [|discriminate].
  intros [= <-]. exists b. repeat split; [exact Hlen|].
  unfold zpad32. rewrite Hlen. reflexivity.
Qed.

(** X3: [addr_to_bytes32] has three outcomes and no other.  Text that
    decodes to 20 bytes gives 12 zero bytes followed by them; text that
    decodes to another number of bytes raises the ValueError of the
    function; text that does not decode raises the ValueError of
    [bytes.fromhex]. *)
Theorem addr_to_bytes32_cases (addr : string) :
  (exists b,
     hex_to_bytes addr = Ok b /\ length b = 20%nat /\
     addr_to_bytes32 addr = Ok (replicate 12 Byte.x00 ++ b)) \/
  (exists b,
     hex_to_bytes addr = Ok b /\ length b <> 20%nat /\
     addr_to_bytes32 addr = Raise (ValueError "address must be 20 bytes")) \/
  (hex_to_bytes addr = Raise fromhex_error /\
   addr_to_bytes32 addr = Raise fromhex_error).
Proof.
  unfold addr_to_bytes32.
  destruct (hex_to_bytes addr) as [b|e] eqn:Hb; cbn [rbind].
  - destruct (decide (length b = 20%nat)) as [Hlen|Hlen].
    + left. exists b. repeat split; [exact Hlen|].
      unfold zpad32. rewrite Hlen. reflexivity.
    + right. left. exists b. repeat split. exact Hlen.
  - right. right.
    rewrite hex_to_bytes_unfold in Hb. apply fromhex_raises in Hb as ->.
    split; reflexivity.
Qed.

(** X4: the prefix is recognised in lower case only: text that begins, white
    space apart, with "0X" is not decoded, whatever follows. *)
Theorem upper_prefix_rejected (s r : string) :
  strip s = String "0" (String "X" r) ->
  hex_to_bytes s = Raise fromhex_error /\
  addr_to_bytes32 s = Raise fromhex_error.
Proof.
  intros Hs.
  assert (Hdec : hex_to_bytes s = Raise fromhex_error).
  { rewrite hex_to_bytes_unfold. unfold hex_digits_of. rewrite Hs.
    cbn [startswith_0x].
    destruct (Z.of_nat (String.length (String "0" (String "X" r))) mod 2 =? 0);
      reflexivity. }
  split; [exact Hdec|]. unfold addr_to_bytes32. rewrite Hdec. reflexivity.
Qed.

Lemma upper_prefix_rejected_witness :
  hex_to_bytes " 0XF39FD6E51AAD88F6F4CE6AB8827279CFFFB92266" = Raise fromhex_error /\
  addr_to_bytes32 " 0XF39FD6E51AAD88F6F4CE6AB8827279CFFFB92266" = Raise fromhex_error.
Proof.
  apply (upper_prefix_rejected " 0XF39FD6E51AAD88F6F4CE6AB8827279CFFFB92266"
           "F39FD6E51AAD88F6F4CE6AB8827279CFFFB92266").
  reflexivity.
Defined.

(** ** The case of the digits *)

Lemma digit_char_props (c : ascii) (x : Z) :
  digit_value c = Some x ->
  is_py_space c = false /\ is_c_space c = false /\
  Ascii.eqb c "x" = false /\ Ascii.eqb c "0" = (x =? 0).
Proof.
  destruct c as [[] [] [] [] [] [] [] []]; intros H; vm_compute in H;
    try discriminate H; injection H as <-; repeat split; reflexivity.
Qed.

Lemma same_digit_props (c d : ascii) :
  same_digit c d = true ->
  is_py_space c = is_py_space d /\ is_c_space c = is_c_space d /\
  digit_value c = digit_value d /\
  Ascii.eqb c "x" = Ascii.eqb d "x" /\ Ascii.eqb c "0" = Ascii.eqb d "0".
Proof.
  unfold same_digit. destruct (Ascii.eqb_spec c d) as [->|_].
  { intros _. repeat split. }
  cbn [orb]. destruct (digit_value c) as [x|] eqn:Hc; [|discriminate].
  destruct (digit_value d) as [y|] eqn:Hd; [|discriminate].
  intros ->%Z.eqb_eq.
  destruct (digit_char_props c y Hc) as (-> & -> & -> & ->).
  destruct (digit_char_props d y Hd) as (-> & -> & -> & ->).
  repeat split.
Qed.

Lemma startswith_0x_chars (c d : ascii) (r : string) :
  startswith_0x (String c (String d r)) = Ascii.eqb c "0" && Ascii.eqb d "x".
Proof.
  destruct c as [[] [] [] [] [] [] [] []]; try reflexivity.
  destruct d as [[] [] [] [] [] [] [] []]; reflexivity.
Qed.

Lemma startswith_0x_short (c : ascii) : startswith_0x (String c "") = false.
Proof. destruct c as [[] [] [] [] [] [] [] []]; reflexivity. Qed.

Lemma same_digits_length (s1 s2 : string) :
  same_digits s1 s2 = true -> String.length s1 = String.length s2.
Proof.
  revert s2. induction s1 as [|c s1 IH]; intros [|d s2] H;
    try discriminate H; [reflexivity|].
  cbn [same_digits] in H. apply andb_prop in H as [_ H].
  cbn [String.length]. rewrite (IH s2 H). reflexivity.
Qed.

Lemma same_digits_lstrip (s1 s2 : string) :
  same_digits s1 s2 = true -> same_digits (lstrip s1) (lstrip s2) = true.
Proof.
  revert s2. induction s1 as [|c s1 IH]; intros [|d s2] H;
    try discriminate H; [reflexivity|].
  pose proof H as H'. cbn [same_digits] in H'.
  apply andb_prop in H' as [Hcd Hs].
  destruct (same_digit_props c d Hcd) as (Hsp & _).
  cbn [lstrip]. rewrite <- Hsp. destruct (is_py_space c); [|exact H].
  apply IH, Hs.
Qed.

Lemma same_digits_rstrip (s1 s2 : string) :
  same_digits s1 s2 = true -> same_digits (rstrip s1) (rstrip s2) = true.
Proof.
  revert s2. induction s1 as [|c s1 IH]; intros [|d s2] H;
    try discriminate H; [reflexivity|].
  cbn [same_digits] in H. apply andb_prop in H as [Hcd Hs].
  destruct (same_digit_props c d Hcd) as (Hsp & _).
  specialize (IH s2 Hs). cbn [rstrip]. rewrite <- Hsp.
  destruct (rstrip s1) as [|c1 r1], (rstrip s2) as [|c2 r2];
    try discriminate IH.
  - destruct (is_py_space c); [reflexivity|].
    cbn [same_digits]. rewrite Hcd. reflexivity.
  - cbn [same_digits] in *. rewrite Hcd, IH. reflexivity.
Qed.

Lemma same_digits_prefix (s1 s2 : string) :
  same_digits s1 s2 = true ->
  startswith_0x s1 = startswith_0x s2 /\
  same_digits (drop2 s1) (drop2 s2) = true.
Proof.
  destruct s1 as [|c1 [|d1 r1]], s2 as [|c2 [|d2 r2]]; cbn [same_digits];
    intros H; try discriminate H;
    try (apply andb_prop in H as [_ H]; discriminate H).
  - split; reflexivity.
  - rewrite !startswith_0x_short. split; reflexivity.
  - apply andb_prop in H as [Hc [Hd Hr]%andb_prop].
    destruct (same_digit_props c1 c2 Hc) as (_ & _ & _ & _ & H0).
    destruct (same_digit_props d1 d2 Hd) as (_ & _ & _ & Hx & _).
    rewrite !startswith_0x_chars, H0, Hx. split; [reflexivity|exact Hr].
Qed.

Lemma same_digits_fromhex (s1 s2 : string) :
  same_digits s1 s2 = true -> fromhex s1 = fromhex s2.
Proof.
  remember (String.length s1) as n eqn:Hn.
  revert s1 s2 Hn. induction (lt_wf n) as [n _ IH]. intros s1 s2 -> H.
  destruct s1 as [|c1 s1], s2 as [|c2 s2]; try discriminate H; [reflexivity|].
  cbn [same_digits] in H. apply andb_prop in H as [Hc Hs].
  destruct (same_digit_props c1 c2 Hc) as (_ & Hsp & Hv & _).
  cbn [fromhex]. rewrite <- Hsp, <- Hv.
  destruct (is_c_space c1).
  { eapply (IH (String.length s1)); [simpl; lia|reflexivity|exact Hs]. }
  destruct (digit_value c1) as [top|]; [|reflexivity].
  destruct s1 as [|d1 s1], s2 as [|d2 s2]; try discriminate Hs; [reflexivity|].
  cbn [same_digits] in Hs. apply andb_prop in Hs as [Hd Hs].
  destruct (same_digit_props d1 d2 Hd) as (_ & _ & Hv' & _).
  rewrite <- Hv'. destruct (digit_value d1) as [bot|]; [|reflexivity].
  rewrite (IH (String.length s1)) with (s1 := s1) (s2 := s2);
    [reflexivity|simpl; lia|reflexivity|exact Hs].
Qed.

(** X5: the case of the digits does not count: two texts that differ at most
    in the case of their hexadecimal digits decode alike, to the same bytes
    or to the same exception, and are the same address or the same
    refusal.  No checksum is read from the case. *)
Theorem hex_case_insensitive (s1 s2 : string) :
  same_digits s1 s2 = true ->
  hex_to_bytes s1 = hex_to_bytes s2 /\
  addr_to_bytes32 s1 = addr_to_bytes32 s2.
Proof.
  intros H.
  assert (Hdec : hex_to_bytes s1 = hex_to_bytes s2).
  { rewrite !hex_to_bytes_unfold.
    assert (Hd : same_digits (hex_digits_of s1) (hex_digits_of s2) = true).
    { unfold hex_digits_of, strip.
      pose proof (same_digits_rstrip _ _ (same_digits_lstrip _ _ H)) as Hs.
      destruct (same_digits_prefix _ _ Hs) as [-> Hdrop].
      destruct (startswith_0x (rstrip (lstrip s2))); assumption. }
    rewrite (same_digits_length _ _ Hd).
    destruct (Z.of_nat (String.length (hex_digits_of s2)) mod 2 =? 0).
    - apply same_digits_fromhex, Hd.
    - apply same_digits_fromhex. cbn [same_digits]. rewrite Hd. reflexivity. }
  split; [exact Hdec|]. unfold addr_to_bytes32. rewrite Hdec. reflexivity.
Qed.

Lemma hex_case_insensitive_witness :
  hex_to_bytes "0xf39Fd6e51aad88F6F4ce6aB8827279cffFb92266"
    = hex_to_bytes "0xf39fd6e51aad88f6f4ce6ab8827279cfffb92266" /\
  addr_to_bytes32 "0xf39Fd6e51aad88F6F4ce6aB8827279cffFb92266"
    = addr_to_bytes32 "0xf39fd6e51aad88f6f4ce6ab8827279cfffb92266".
Proof.
  apply (hex_case_insensitive "0xf39Fd6e51aad88F6F4ce6aB8827279cffFb92266"
           "0xf39fd6e51aad88f6f4ce6ab8827279cfffb92266").
  reflexivity.
Defined.

(** ** Words and indices *)

Lemma to_bytes_defined (n : nat) (v : Z) :
  is_ok (to_bytes n v) = true <-> 0 <= v < 2 ^ (8 * Z.of_nat n).
Proof.
  unfold to_bytes.
  destruct (Z.ltb_spec v 0); [cbn; split; [discriminate|lia]|].
  destruct (Z.leb_spec (2 ^ (8 * Z.of_nat n)) v); cbn;
    split; try discriminate; try lia; reflexivity.
Qed.

(** X6: every amount from 0 up to 2^256 - 1 has a storage word, of 66
    characters, and the 32 bytes of the word read back as a big-endian
    unsigned integer give the amount. *)
Theorem storage_word_roundtrip_all (v : Z) :
  0 <= v < 2 ^ 256 ->
  exists w b,
    int_to_storage_word v = Ok w /\ String.length w = 66%nat /\
    hex_to_bytes w = Ok b /\ length b = 32%nat /\ from_bytes b = v.
Proof.
  intros Hv. exists (bytes_to_hex (be_bytes 32 v)), (be_bytes 32 v).
  split; [|split; [|split; [|split]]].
  - unfold int_to_storage_word. destruct (Z.ltb_spec v 0); [lia|].
    rewrite to_bytes_ok by exact Hv. reflexivity.
  - rewrite length_bytes_to_hex, length_be_bytes. reflexivity.
  - apply hex_to_bytes_of_hex.
  - apply length_be_bytes.
  - apply from_bytes_be_bytes. exact Hv.
Qed.

Lemma storage_word_roundtrip_all_witness :
  exists w b,
    int_to_storage_word 1000 = Ok w /\ String.length w = 66%nat /\
    hex_to_bytes w = Ok b /\ length b = 32%nat /\ from_bytes b = 1000.
Proof. apply (storage_word_roundtrip_all 1000). lia. Defined.

Lemma storage_word_defined (v : Z) :
  is_ok (int_to_storage_word v) = true <-> 0 <= v < 2 ^ 256.
Proof.
  pose proof (to_bytes_defined 32 v) as Hb.
  change (8 * Z.of_nat 32) with 256 in Hb.
  unfold int_to_storage_word.
  destruct (Z.ltb_spec v 0); [cbn; split; [discriminate|lia]|].
  destruct (to_bytes 32 v) as [b|e]; cbn [rbind is_ok] in *; exact Hb.
Qed.

Lemma index_bytes_defined (v : Z) :
  is_ok (int_to_bytes32 v) = true <-> 0 <= v < 2 ^ 256.
Proof.
  pose proof (to_bytes_defined 32 v) as Hb.
  change (8 * Z.of_nat 32) with 256 in Hb.
  unfold int_to_bytes32.
  destruct (Z.ltb_spec v 0); [cbn; split; [discriminate|lia]|exact Hb].
Qed.

(** X7: the two integer encoders are defined on the same integers, those
    from 0 up to 2^256 - 1, and raise on every other. *)
Theorem encoders_defined (v : Z) :
  (is_ok (int_to_storage_word v) = true <-> 0 <= v < 2 ^ 256) /\
  (is_ok (int_to_bytes32 v) = true <-> 0 <= v < 2 ^ 256).
Proof.
  split; [apply storage_word_defined|apply index_bytes_defined].
Qed.

(** X8: two integers with the same 32-byte encoding are the same integer:
    no two slot indices share a preimage. *)
Theorem int_to_bytes32_injective (i j : Z) (b : list byte) :
  int_to_bytes32 i = Ok b -> int_to_bytes32 j = Ok b -> i = j.
Proof.
  intros Hi Hj.
  assert (Hri : 0 <= i < 2 ^ 256)
    by (apply index_bytes_defined; rewrite Hi; reflexivity).
  assert (Hrj : 0 <= j < 2 ^ 256)
    by (apply index_bytes_defined; rewrite Hj; reflexivity).
  rewrite (int_to_bytes32_ok i Hri) in Hi. rewrite (int_to_bytes32_ok j Hrj) in Hj.
  assert (Heq : be_bytes 32 i = be_bytes 32 j) by congruence.
  transitivity (from_bytes (be_bytes 32 i));
    [symmetry; apply from_bytes_be_bytes; exact Hri|].
  rewrite Heq. apply from_bytes_be_bytes. exact Hrj.
Qed.

Lemma int_to_bytes32_injective_witness : 7 = 7.
Proof.
  apply (int_to_bytes32_injective 7 7 (be_bytes 32 7)); reflexivity.
Defined.

(** X9: two amounts with the same storage word are the same amount. *)
Theorem int_to_storage_word_injective (v1 v2 : Z) (w : string) :
  int_to_storage_word v1 = Ok w -> int_to_storage_word v2 = Ok w -> v1 = v2.
Proof.
  intros H1 H2.
  assert (Hr1 : 0 <= v1 < 2 ^ 256)
    by (apply storage_word_defined; rewrite H1; reflexivity).
  assert (Hr2 : 0 <= v2 < 2 ^ 256)
    by (apply storage_word_defined; rewrite H2; reflexivity).
  destruct (storage_word_roundtrip v1 Hr1) as (w1 & b1 & Hw1 & Hb1 & _ & <-).
  destruct (storage_word_roundtrip v2 Hr2) as (w2 & b2 & Hw2 & Hb2 & _ & <-).
  congruence.
Qed.

Lemma int_to_storage_word_injective_witness : 1000 = 1000.
Proof.
  apply (int_to_storage_word_injective 1000 1000
           "0x00000000000000000000000000000000000000000000000000000000000003e8");
    reflexivity.
Defined.

(** ** The call data of the balance read *)

(** X10: when [encode_balance_of] returns, the account decodes to 20 bytes
    and the call data is the text of the first four bytes of the digest of
    the ASCII bytes of "balanceOf(address)", then 12 zero bytes, then the
    20 bytes of the account: 74 characters when the digest has at least
    four bytes. *)
Theorem encode_balance_of_layout (keccak256 : list byte -> list byte)
    (account call_data : string) :
  encode_balance_of keccak256 account = Ok call_data ->
  exists b,
    hex_to_bytes account = Ok b /\ length b = 20%nat /\
    hex_to_bytes call_data
      = Ok (take 4 (keccak256 (ascii_bytes "balanceOf(address)"))
            ++ replicate 12 Byte.x00 ++ b) /\
    ((4 <= length (keccak256 (ascii_bytes "balanceOf(address)")))%nat ->
     String.length call_data = 74%nat).
Proof.
  unfold encode_balance_of. intros H.
  destruct (addr_to_bytes32 account) as [p|e] eqn:Ha; [|discriminate H].
  destruct (addr_to_bytes32_ok account p Ha) as (b & Hb & Hlen & ->).
  cbn [rbind] in H.
  assert (Hcd : call_data
                = bytes_to_hex (take 4 (keccak256 (ascii_bytes "balanceOf(address)"))
                                ++ replicate 12 Byte.x00 ++ b))
    by (injection H as <-; reflexivity).
  exists b. split; [exact Hb|]. split; [exact Hlen|]. rewrite Hcd.
  split; [apply hex_to_bytes_of_hex|]. intros Hdigest.
  rewrite length_bytes_to_hex, !length_app, length_take, length_replicate, Hlen.
  lia.
Qed.

Lemma encode_balance_of_layout_witness :
  exists b,
    hex_to_bytes Mock.account = Ok b /\ length b = 20%nat /\
    hex_to_bytes "0x00000000000000000000000000000000f39fd6e51aad88f6f4ce6ab8827279cfffb92266"
      = Ok (take 4 (Mock.digest (ascii_bytes "balanceOf(address)"))
            ++ replicate 12 Byte.x00 ++ b) /\
    ((4 <= length (Mock.digest (ascii_bytes "balanceOf(address)")))%nat ->
     String.length "0x00000000000000000000000000000000f39fd6e51aad88f6f4ce6ab8827279cfffb92266"
       = 74%nat).
Proof.
  apply (encode_balance_of_layout Mock.digest Mock.account).
  vm_compute. reflexivity.
Defined.

(** * Further properties of the runs *)

Section Outcomes.

Context {value node : Type}.
Variable keccak256 : list byte -> list byte.
Variable int16 : value -> result Z.
Variable str_of : value -> string.
Variable urlopen : node -> string -> @payload value -> node * @reply value.

Implicit Types (a : @args) (t : list (@call value)) (o : list output)
  (c : @call value).

(** ** How the loop ends *)

Lemma loop_decompose a (call_data desired_word : string) (l : list Z) r t o :
  loop_behaviour keccak256 int16 a call_data desired_word l r t o ->
  exists l1 blocks rest,
    Forall2 (restored keccak256 int16 a call_data desired_word) l1 blocks /\
    t = concat blocks ++ rest /\
    ((r = Ok None /\ l1 = l /\ rest = [] /\ o = []) \/
     (exists i l2,
        l = l1 ++ i :: l2 /\ r <> Ok None /\
        probe_behaviour keccak256 int16 a call_data desired_word i r rest o)).
Proof.
  induction 1 as [|i l r t o Hb Hr|i l r t1 t2 o Hres _ IH].
  - exists [], [], []. split; [constructor|]. split; [reflexivity|].
    left. repeat split.
  - exists [], [], t. split; [constructor|]. split; [reflexivity|].
    right. exists i, l. repeat split; assumption.
  - destruct IH as (l1 & blocks & rest & Hblocks & -> & Hcase).
    exists (i :: l1), (t1 :: blocks), rest.
    split; [by constructor|].
    split; [cbn [concat]; rewrite app_assoc; reflexivity|].
    destruct Hcase as [(-> & -> & -> & ->)|(j & l2 & -> & Hr & Hb)].
    + left. repeat split.
    + right. exists j, l2. repeat split; assumption.
Qed.

Lemma probe_stop_cases a (call_data desired_word : string) (i : Z) r t o :
  probe_behaviour keccak256 int16 a call_data desired_word i r t o ->
  r <> Ok None ->
  (exists e,
     r = Raise e /\ t = [] /\ o = [] /\
     storage_key_of keccak256 (arg_account a) i = Raise e) \/
  (exists key,
     r = Ok (Some 0) /\
     found keccak256 int16 a call_data desired_word i t /\
     storage_key_of keccak256 (arg_account a) i = Ok key /\
     o = [out_found i; out_key key; out_after (arg_amount a)]) \/
  (r = Ok (Some 2) /\
   exists pre c e,
     t = pre ++ [c] /\ forallb (call_ok int16) pre = true /\
     call_ok int16 c = false /\ (length t <= 4)%nat /\
     (o = [err_rpc i e] \/ o = [err_restore i e])).
Proof.
  intros Hb Hr.
  inversion Hb as [e ?|key e ?|key old e ?|key old w1 e ?|key old w1 v e ? Hv
                  |key t' ? Hf|key old w1 v after e ? Hv ?|t' Hres]; subst.
  - left. exists e. repeat split; assumption.
  - right. right. split; [reflexivity|].
    exists [], (read_call a key (Raise e)), e.
    repeat split; [cbn; lia|left; reflexivity].
  - right. right. split; [reflexivity|].
    exists [read_call a key (Ok old)],
      (write_call a key (PStr desired_word) (Raise e)), e.
    repeat split; [cbn; lia|left; reflexivity].
  - right. right. split; [reflexivity|].
    exists [read_call a key (Ok old);
            write_call a key (PStr desired_word) (Ok w1)],
      (balance_call a call_data (Raise e)), e.
    repeat split; [cbn; lia|left; reflexivity].
  - right. right. split; [reflexivity|].
    exists [read_call a key (Ok old);
            write_call a key (PStr desired_word) (Ok w1)],
      (balance_call a call_data (Ok v)), e.
    repeat split; [|cbn; lia|left; reflexivity].
    unfold call_ok, read_int. cbn. rewrite Hv. reflexivity.
  - right. left. exists key. repeat split; assumption.
  - right. right. split; [reflexivity|].
    exists [read_call a key (Ok old);
            write_call a key (PStr desired_word) (Ok w1);
            balance_call a call_data (Ok v)],
      (write_call a key (PJson old) (Raise e)), e.
    repeat split; [|cbn; lia|right; reflexivity].
    unfold call_ok, read_int. cbn. rewrite Hv. reflexivity.
  - congruence.
Qed.

Lemma blocks_all_ok a (call_data desired_word : string) (l : list Z)
    (blocks : list (list call)) :
  Forall2 (restored keccak256 int16 a call_data desired_word) l blocks ->
  forallb (call_ok int16) (concat blocks) = true /\
  length (concat blocks) = (4 * length l)%nat.
Proof.
  induction 1 as [|i t l blocks Hres _ [IHok IHlen]]; [split; reflexivity|].
  destruct (balance_reads_restored _ _ _ _ _ _ _ Hres) as [Hok _].
  cbn [concat]. rewrite forallb_app, Hok, IHok, length_app, IHlen.
  split; [reflexivity|]. destruct Hres. cbn [length]. lia.
Qed.

(** ** What leaves [main] *)

Lemma addr_to_bytes32_raises (addr : string) (e : exn) :
  addr_to_bytes32 addr = Raise e ->
  e = fromhex_error \/ e = ValueError "address must be 20 bytes".
Proof.
  unfold addr_to_bytes32.
  destruct (hex_to_bytes addr) as [b|e'] eqn:Hb; cbn [rbind].
  - destruct (decide (length b = 20%nat)); [discriminate|].
    intros [= <-]. right. reflexivity.
  - intros [= <-]. left.
    rewrite hex_to_bytes_unfold in Hb. exact (fromhex_raises _ _ Hb).
Qed.

Lemma storage_word_raises (v : Z) (e : exn) :
  int_to_storage_word v = Raise e ->
  e = ValueError "amount must be non-negative" \/
  e = OverflowError "int too big to convert".
Proof.
  unfold int_to_storage_word, to_bytes.
  destruct (v <? 0); [intros [= <-]; left; reflexivity|].
  destruct (2 ^ (8 * Z.of_nat 32) <=? v); cbn [rbind]; [|discriminate].
  intros [= <-]. right. reflexivity.
Qed.

Lemma storage_key_raises (account call_data : string) (i : Z) (e : exn) :
  encode_balance_of keccak256 account = Ok call_data ->
  0 <= i ->
  storage_key_of keccak256 account i = Raise e ->
  e = OverflowError "int too big to convert" /\ 2 ^ 256 <= i.
Proof.
  unfold encode_balance_of, storage_key_of, int_to_bytes32, to_bytes.
  intros Hcd Hi.
  destruct (addr_to_bytes32 account) as [p|e']; [|discriminate Hcd].
  cbn [rbind]. destruct (Z.ltb_spec i 0); [lia|].
  change (8 * Z.of_nat 32) with 256.
  destruct (Z.leb_spec (2 ^ 256) i); cbn [rbind]; [|discriminate].
  intros [= <-]. split; [reflexivity|assumption].
Qed.

Lemma main_results a (n : node) :
  match (run keccak256 int16 str_of urlopen a n).1 with
  | Ok status => status = 0 \/ status = 1 \/ status = 2
  | Raise e =>
      e = fromhex_error \/
      e = ValueError "address must be 20 bytes" \/
      e = ValueError "amount must be non-negative" \/
      e = OverflowError "int too big to convert" \/
      e = digits_error
  end.
Proof.
  destruct (main_sound keccak256 int16 str_of urlopen a n)
    as (r & n' & t & o & -> & Hm).
  cbn [fst].
  inversion Hm as [e He|call_data r0 e Hcd Hread|call_data r0 before e Hcd Hread Hdw Hpr
                  |call_data r0 before dw c' t' o' Hcd Hread Hdw Hl Hpr
                  |call_data r0 before dw e t' o' Hcd Hread Hdw Hl Hpr
                  |call_data r0 before dw t' o' Hcd Hread Hdw Hl Hpr Hms
                  |call_data r0 before e Hcd Hread Hpr
                  |call_data r0 before dw e t' o' Hcd Hread Hdw Hl Hpr Hms]; subst.
  - unfold encode_balance_of in He.
    destruct (addr_to_bytes32 (arg_account a)) as [p|e'] eqn:Ha;
      [discriminate He|].
    injection He as <-.
    destruct (addr_to_bytes32_raises _ _ Ha) as [->| ->]; auto.
  - auto.
  - destruct (storage_word_raises _ _ Hdw) as [->| ->]; auto.
  - destruct (loop_decompose _ _ _ _ _ _ _ Hl)
      as (l1 & blocks & rest & _ & _ & [(Hr & _)|(i & l2 & _ & Hr & Hb)]);
      [discriminate Hr|].
    destruct (probe_stop_cases _ _ _ _ _ _ _ Hb Hr)
      as [(e & Hr' & _)|[(key & Hr' & _)|(Hr' & _)]];
      try discriminate Hr'; injection Hr' as ->; auto.
  - destruct (loop_decompose _ _ _ _ _ _ _ Hl)
      as (l1 & blocks & rest & _ & _ & [(Hr & _)|(i & l2 & Hsplit & Hr & Hb)]);
      [discriminate Hr|].
    destruct (probe_stop_cases _ _ _ _ _ _ _ Hb Hr)
      as [(e' & Hr' & _ & _ & Hkey)|[(key & Hr' & _)|(Hr' & _)]];
      try discriminate Hr'. injection Hr' as <-.
    assert (Hi : 0 <= i < arg_max_slot a + 1).
    { apply range_bounds. rewrite Hsplit. apply elem_of_app. right. left. }
    destruct (storage_key_raises _ _ _ _ Hcd (proj1 Hi) Hkey) as [-> _]. auto.
  - auto.
  - destruct (str_int_cases before) as [H|H]; rewrite H in Hpr;
      [discriminate Hpr|]. injection Hpr as <-. auto 6.
  - destruct (str_int_cases (arg_max_slot a)) as [H|H]; rewrite H in Hms;
      [discriminate Hms|]. injection Hms as <-. auto 6.
Qed.

(** X11: [main] returns 0, 1 or 2 and nothing else, and the only exceptions
    that leave it are the four of the encoders, the two ValueErrors of an
    address, the ValueError of a negative amount and the OverflowError of a
    number of 2^256 or more, and the ValueError of printing an integer of
    more than 4300 digits.  No exception of a call of [rpc] leaves
    [main]. *)
Theorem main_outcomes a (n : node) :
  match (run keccak256 int16 str_of urlopen a n).1 with
  | Ok status => status = 0 \/ status = 1 \/ status = 2
  | Raise e =>
      e = fromhex_error \/
      e = ValueError "address must be 20 bytes" \/
      e = ValueError "amount must be non-negative" \/
      e = OverflowError "int too big to convert" \/
      e = digits_error
  end.
Proof. exact (main_results a n). Qed.

(** ** Numbers the encoders refuse *)

(** A run whose amount cannot be encoded: the amount is encoded at line
    107, after the first balance read and the printing of its value. *)
Lemma bad_amount_run a (n : node) e :
  int_to_storage_word (arg_amount a) = Raise e ->
  (length (w_trace (run keccak256 int16 str_of urlopen a n).2) <= 1)%nat /\
  Forall (fun c => call_method c = "eth_call")
    (w_trace (run keccak256 int16 str_of urlopen a n).2) /\
  ((run keccak256 int16 str_of urlopen a n).1 = Raise e ->
   exists call_data v before,
     encode_balance_of keccak256 (arg_account a) = Ok call_data /\
     int16 v = Ok before /\
     str_int before = Ok tt /\
     w_trace (run keccak256 int16 str_of urlopen a n).2
       = [balance_call a call_data (Ok v)] /\
     w_out (run keccak256 int16 str_of urlopen a n).2 = [out_before before]) /\
  (forall before,
     head (balance_reads int16
             (w_trace (run keccak256 int16 str_of urlopen a n).2))
       = Some (Ok before) ->
     str_int before = Ok tt ->
     (run keccak256 int16 str_of urlopen a n).1 = Raise e).
Proof.
  intros Hbad.
  assert (He : e <> fromhex_error /\
               e <> ValueError "address must be 20 bytes" /\
               e <> digits_error).
  { destruct (storage_word_raises _ _ Hbad) as [->| ->];
      repeat split; discriminate. }
  destruct He as (He1 & He2 & He3).
  destruct (main_sound keccak256 int16 str_of urlopen a n)
    as (r & n' & t & o & -> & Hm).
  cbn [fst snd w_trace w_out].
  inversion Hm as [e' Hacc|call_data r0 e' Hcd Hread
                  |call_data r0 before e' Hcd Hread Hdw Hpr
                  |call_data r0 before dw c' t' o' Hcd Hread Hdw Hl Hpr
                  |call_data r0 before dw e' t' o' Hcd Hread Hdw Hl Hpr
                  |call_data r0 before dw t' o' Hcd Hread Hdw Hl Hpr Hms
                  |call_data r0 before e' Hcd Hread Hpr
                  |call_data r0 before dw e' t' o' Hcd Hread Hdw Hl Hpr Hms];
    subst; try congruence.
  - split; [cbn; lia|]. split; [constructor|]. split; [|discriminate].
    intros [= <-]. exfalso. unfold encode_balance_of in Hacc.
    destruct (addr_to_bytes32 (arg_account a)) as [p|e0] eqn:Ha;
      [discriminate Hacc|].
    injection Hacc as ->.
    destruct (addr_to_bytes32_raises _ _ Ha); congruence.
  - split; [cbn; lia|]. split; [repeat constructor|].
    split; [discriminate|].
    intros before. rewrite balance_reads_cons. cbn [head].
    rewrite Hread. discriminate.
  - assert (e' = e) as -> by congruence.
    split; [cbn; lia|]. split; [repeat constructor|]. split.
    + intros _. destruct r0 as [v|e0]; [|discriminate Hread].
      exists call_data, v, before. repeat split; assumption.
    + reflexivity.
  - split; [cbn; lia|]. split; [repeat constructor|]. split.
    + intros [= <-]. exfalso.
      destruct (str_int_cases before) as [H|H]; rewrite H in Hpr; congruence.
    + intros before'. rewrite balance_reads_cons. cbn [head].
      rewrite Hread. intros [= <-] Hgood. rewrite Hgood in Hpr.
      discriminate Hpr.
Qed.

(** The ValueError of [int_to_bytes32] never leaves [main]: the indices of
    the loop come from [range], and none is negative. *)
Lemma index_error_never_raised a (n : node) :
  (run keccak256 int16 str_of urlopen a n).1
    <> Raise (ValueError "slot index must be non-negative").
Proof.
  pose proof (main_results a n) as H. intros Hr. rewrite Hr in H.
  destruct H as [H|[H|[H|[H|H]]]]; discriminate H.
Qed.

(** With a negative max-slot the body of the loop never runs. *)
Lemma negative_bound_run a (n : node) :
  arg_max_slot a < 0 ->
  (length (w_trace (run keccak256 int16 str_of urlopen a n).2) <= 1)%nat /\
  Forall (fun c => call_method c = "eth_call")
    (w_trace (run keccak256 int16 str_of urlopen a n).2).
Proof.
  intros Hneg.
  destruct (main_sound keccak256 int16 str_of urlopen a n)
    as (r & n' & t & o & -> & Hm).
  cbn [fst snd w_trace w_out].
  inversion Hm as [e' Hacc|call_data r0 e' Hcd Hread
                  |call_data r0 before e' Hcd Hread Hdw Hpr
                  |call_data r0 before dw c' t' o' Hcd Hread Hdw Hl Hpr
                  |call_data r0 before dw e' t' o' Hcd Hread Hdw Hl Hpr
                  |call_data r0 before dw t' o' Hcd Hread Hdw Hl Hpr Hms
                  |call_data r0 before e' Hcd Hread Hpr
                  |call_data r0 before dw e' t' o' Hcd Hread Hdw Hl Hpr Hms];
    subst;
    try (rewrite range_nonpositive in Hl by lia; inversion Hl; subst);
    split; try (cbn; lia); repeat constructor.
Qed.

(** C3, as amended: a negative slot index and a negative amount make their
    encoders raise ValueError, the spec's EncodingError.  [main] never
    gives [int_to_bytes32] a negative index: no run ends with its
    ValueError, and with a negative max-slot the run makes at most the
    first balance read.  [main] encodes the amount after the first balance
    read: with a negative amount the run makes no other call than that
    [eth_call]; whenever it ends with the ValueError of the amount, that
    one call has been made, has given an integer and the integer has been
    printed; and it does end so whenever the first balance read gives an
    integer that can be printed. *)
Theorem negative_inputs_rejected a (n : node) (i : Z) :
  (i < 0 ->
   int_to_bytes32 i = Raise (ValueError "slot index must be non-negative")) /\
  (run keccak256 int16 str_of urlopen a n).1
    <> Raise (ValueError "slot index must be non-negative") /\
  (arg_max_slot a < 0 ->
   (length (w_trace (run keccak256 int16 str_of urlopen a n).2) <= 1)%nat /\
   Forall (fun c => call_method c = "eth_call")
     (w_trace (run keccak256 int16 str_of urlopen a n).2)) /\
  (arg_amount a < 0 ->
   int_to_storage_word (arg_amount a)
     = Raise (ValueError "amount must be non-negative") /\
   (length (w_trace (run keccak256 int16 str_of urlopen a n).2) <= 1)%nat /\
   Forall (fun c => call_method c = "eth_call")
     (w_trace (run keccak256 int16 str_of urlopen a n).2) /\
   ((run keccak256 int16 str_of urlopen a n).1
      = Raise (ValueError "amount must be non-negative") ->
    exists cd v before,
      encode_balance_of keccak256 (arg_account a) = Ok cd /\
      int16 v = Ok before /\
      str_int before = Ok tt /\
      w_trace (run keccak256 int16 str_of urlopen a n).2
        = [balance_call a cd (Ok v)] /\
      w_out (run keccak256 int16 str_of urlopen a n).2 = [out_before before]) /\
   (forall before,
      head (balance_reads int16
              (w_trace (run keccak256 int16 str_of urlopen a n).2))
        = Some (Ok before) ->
      str_int before = Ok tt ->
      (run keccak256 int16 str_of urlopen a n).1
        = Raise (ValueError "amount must be non-negative"))).
Proof.
  split; [apply negative_index_raises|].
  split; [apply index_error_never_raised|].
  split; [apply negative_bound_run|].
  intros Hneg. pose proof (negative_amount_raises _ Hneg) as Hraise.
  split; [exact Hraise|]. exact (bad_amount_run a n _ Hraise).
Qed.

(** C10: an amount of 2^256 or more makes [int_to_storage_word] raise
    OverflowError, the amount not fitting in 32 bytes.  A run with such an
    amount never issues a storage write.  Whenever it ends with that
    OverflowError, the first balance read has been issued, has given an
    integer that has been printed, and is the only call of the run; and it
    does end so, [main] returning no status, whenever the first balance
    read gives an integer that can be printed. *)
Theorem oversized_amount_raises a (n : node) :
  2 ^ 256 <= arg_amount a ->
  int_to_storage_word (arg_amount a)
    = Raise (OverflowError "int too big to convert") /\
  Forall (fun c => is_write c = false)
    (w_trace (run keccak256 int16 str_of urlopen a n).2) /\
  ((run keccak256 int16 str_of urlopen a n).1
     = Raise (OverflowError "int too big to convert") ->
   exists cd v before,
     encode_balance_of keccak256 (arg_account a) = Ok cd /\
     int16 v = Ok before /\
     str_int before = Ok tt /\
     w_trace (run keccak256 int16 str_of urlopen a n).2
       = [balance_call a cd (Ok v)] /\
     w_out (run keccak256 int16 str_of urlopen a n).2 = [out_before before]) /\
  (forall before,
     head (balance_reads int16
             (w_trace (run keccak256 int16 str_of urlopen a n).2))
       = Some (Ok before) ->
     str_int before = Ok tt ->
     (run keccak256 int16 str_of urlopen a n).1
       = Raise (OverflowError "int too big to convert") /\
     forall status, (run keccak256 int16 str_of urlopen a n).1 <> Ok status).
Proof.
  intros Hbig. pose proof (oversized_raises _ Hbig) as Hraise.
  split; [exact Hraise|].
  destruct (bad_amount_run a n _ Hraise) as (_ & Hcalls & Hafter & Hrun).
  split.
  { eapply Forall_impl; [exact Hcalls|]. intros c Hc. unfold is_write.
    rewrite Hc. reflexivity. }
  split; [exact Hafter|].
  intros before Hfirst Hgood. rewrite (Hrun before Hfirst Hgood).
  split; [reflexivity|]. discriminate.
Qed.

Lemma success_shape a (n : node) :
  (run keccak256 int16 str_of urlopen a n).1 = Ok 0 ->
  exists (k : nat) (call_data desired_word key : string) (first : value)
         (before : Z) (blocks : list (list call)) (final : list call),
    0 <= Z.of_nat k <= arg_max_slot a /\
    encode_balance_of keccak256 (arg_account a) = Ok call_data /\
    int_to_storage_word (arg_amount a) = Ok desired_word /\
    storage_key_of keccak256 (arg_account a) (Z.of_nat k) = Ok key /\
    Forall2 (restored keccak256 int16 a call_data desired_word)
      (range (Z.of_nat k)) blocks /\
    found keccak256 int16 a call_data desired_word (Z.of_nat k) final /\
    w_trace (run keccak256 int16 str_of urlopen a n).2
      = balance_call a call_data (Ok first) :: concat blocks ++ final /\
    forallb (call_ok int16)
      (w_trace (run keccak256 int16 str_of urlopen a n).2) = true /\
    w_out (run keccak256 int16 str_of urlopen a n).2
      = [out_before before; out_found (Z.of_nat k); out_key key;
         out_after (arg_amount a)].
Proof.
  destruct (main_sound keccak256 int16 str_of urlopen a n)
    as (r & n' & t & o & -> & Hm).
  cbn [fst snd w_trace w_out]. intros ->.
  inversion Hm as [| | |call_data r0 before dw c' t' o' Hcd Hread Hdw Hl Hpr| | | |];
    subst.
  destruct (loop_decompose _ _ _ _ _ _ _ Hl)
    as (l1 & blocks & rest & Hblocks & -> & [(Hr & _)|(i & l2 & Hsplit & Hr & Hb)]);
    [discriminate Hr|].
  destruct (probe_stop_cases _ _ _ _ _ _ _ Hb Hr)
    as [(e & Hr' & _)|[(key & _ & Hf & Hkey & ->)|(Hr' & _)]];
    try discriminate Hr'.
  destruct (range_split _ _ _ _ Hsplit) as (Hl1 & -> & Hlt).
  destruct r0 as [first|e0]; [|discriminate Hread].
  exists (length l1), call_data, dw, key, first, before, blocks, rest.
  rewrite <- Hl1.
  split; [lia|]. do 6 (split; [assumption || reflexivity|]).
  split; [|reflexivity].
  destruct (blocks_all_ok _ _ _ _ _ Hblocks) as [Hok _].
  cbn [forallb]. rewrite (call_ok_balance_call int16), Hread.
  rewrite forallb_app, Hok. destruct Hf as [key' old w1 v _ Hv].
  unfold call_ok, read_int. cbn. rewrite Hv. reflexivity.
Qed.

Lemma exhausted_shape a (n : node) :
  (run keccak256 int16 str_of urlopen a n).1 = Ok 1 ->
  exists (call_data desired_word : string) (first : value) (before : Z)
         (blocks : list (list call)),
    encode_balance_of keccak256 (arg_account a) = Ok call_data /\
    int_to_storage_word (arg_amount a) = Ok desired_word /\
    Forall2 (restored keccak256 int16 a call_data desired_word)
      (range (arg_max_slot a + 1)) blocks /\
    w_trace (run keccak256 int16 str_of urlopen a n).2
      = balance_call a call_data (Ok first) :: concat blocks /\
    forallb (call_ok int16)
      (w_trace (run keccak256 int16 str_of urlopen a n).2) = true /\
    w_out (run keccak256 int16 str_of urlopen a n).2
      = [out_before before; err_not_found (arg_max_slot a)].
Proof.
  destruct (main_sound keccak256 int16 str_of urlopen a n)
    as (r & n' & t & o & -> & Hm).
  cbn [fst snd w_trace w_out]. intros ->.
  inversion Hm as [| | |call_data r0 before dw c' t' o' Hcd Hread Hdw Hl Hpr|
                  |call_data r0 before dw t' o' Hcd Hread Hdw Hl Hpr Hms| |]; subst.
  - exfalso.
    destruct (loop_decompose _ _ _ _ _ _ _ Hl)
      as (l1 & blocks & rest & _ & _ & [(Hr & _)|(i & l2 & _ & Hr & Hb)]);
      [discriminate Hr|].
    destruct (probe_stop_cases _ _ _ _ _ _ _ Hb Hr)
      as [(e & Hr' & _)|[(key & Hr' & _)|(Hr' & _)]]; discriminate Hr'.
  - destruct (loop_decompose _ _ _ _ _ _ _ Hl)
      as (l1 & blocks & rest & Hblocks & -> &
          [(_ & -> & -> & ->)|(i & l2 & _ & Hr & _)]);
      [|congruence].
    destruct r0 as [first|e0]; [|discriminate Hread].
    exists call_data, dw, first, before, blocks.
    rewrite app_nil_r. do 4 (split; [assumption || reflexivity|]).
    split; [|reflexivity].
    destruct (blocks_all_ok _ _ _ _ _ Hblocks) as [Hok _].
    cbn [forallb]. rewrite (call_ok_balance_call int16), Hread, Hok.
    reflexivity.
Qed.

(** X12: [main] returns 0 only when a balance read gave the amount.  In
    such a run every call went well; the calls are the first balance read,
    the four calls of each index below the one found, probed and restored in
    increasing order, and the read, the write and the matching balance read
    of the index found, which is at most max-slot. *)
Theorem success_is_verified a (n : node) :
  (run keccak256 int16 str_of urlopen a n).1 = Ok 0 ->
  exists (k : nat) (call_data desired_word key : string) (first : value)
         (before : Z) (blocks : list (list call)) (final : list call),
    0 <= Z.of_nat k <= arg_max_slot a /\
    encode_balance_of keccak256 (arg_account a) = Ok call_data /\
    int_to_storage_word (arg_amount a) = Ok desired_word /\
    storage_key_of keccak256 (arg_account a) (Z.of_nat k) = Ok key /\
    Forall2 (restored keccak256 int16 a call_data desired_word)
      (range (Z.of_nat k)) blocks /\
    found keccak256 int16 a call_data desired_word (Z.of_nat k) final /\
    w_trace (run keccak256 int16 str_of urlopen a n).2
      = balance_call a call_data (Ok first) :: concat blocks ++ final /\
    forallb (call_ok int16)
      (w_trace (run keccak256 int16 str_of urlopen a n).2) = true /\
    w_out (run keccak256 int16 str_of urlopen a n).2
      = [out_before before; out_found (Z.of_nat k); out_key key;
         out_after (arg_amount a)].
Proof. apply success_shape. Qed.

(** X13: [main] returns 1 only after every index from 0 to max-slot was
    probed and restored: the calls of such a run are the first balance read
    and then, index after index, the four calls of an index probed and
    restored; every call went well, and the last line printed is the one of
    the exhausted search. *)
Theorem exhaustion_is_complete a (n : node) :
  (run keccak256 int16 str_of urlopen a n).1 = Ok 1 ->
  exists (call_data desired_word : string) (first : value) (before : Z)
         (blocks : list (list call)),
    encode_balance_of keccak256 (arg_account a) = Ok call_data /\
    int_to_storage_word (arg_amount a) = Ok desired_word /\
    Forall2 (restored keccak256 int16 a call_data desired_word)
      (range (arg_max_slot a + 1)) blocks /\
    w_trace (run keccak256 int16 str_of urlopen a n).2
      = balance_call a call_data (Ok first) :: concat blocks /\
    forallb (call_ok int16)
      (w_trace (run keccak256 int16 str_of urlopen a n).2) = true /\
    w_out (run keccak256 int16 str_of urlopen a n).2
      = [out_before before; err_not_found (arg_max_slot a)].
Proof. apply exhausted_shape. Qed.

(** X14: [main] returns 2 only when a call failed: the last call of such a
    run raised, or was a balance read that gave no integer, and every call
    before it went well. *)
Theorem failure_status_has_cause a (n : node) :
  (run keccak256 int16 str_of urlopen a n).1 = Ok 2 ->
  exists (pre : list call) (c : call),
    w_trace (run keccak256 int16 str_of urlopen a n).2 = pre ++ [c] /\
    forallb (call_ok int16) pre = true /\
    call_ok int16 c = false.
Proof.
  destruct (main_sound keccak256 int16 str_of urlopen a n)
    as (r & n' & t & o & -> & Hm).
  cbn [fst snd w_trace w_out]. intros ->.
  inversion Hm as [|call_data r0 e Hcd Hread|
                  |call_data r0 before dw c' t' o' Hcd Hread Hdw Hl Hpr| | | |]; subst.
  - exists [], (balance_call a call_data r0). split; [reflexivity|].
    split; [reflexivity|].
    rewrite (call_ok_balance_call int16), Hread. reflexivity.
  - destruct (loop_decompose _ _ _ _ _ _ _ Hl)
      as (l1 & blocks & rest & Hblocks & -> & [(Hr & _)|(i & l2 & _ & Hr & Hb)]);
      [discriminate Hr|].
    destruct (probe_stop_cases _ _ _ _ _ _ _ Hb Hr)
      as [(e & Hr' & _)|[(key & Hr' & _)
                        |(_ & pre & c & e & -> & Hpre & Hc & _)]];
      try discriminate Hr'.
    exists (balance_call a call_data r0 :: concat blocks ++ pre), c.
    split; [cbn [app]; rewrite <- app_assoc; reflexivity|].
    split; [|exact Hc].
    destruct (blocks_all_ok _ _ _ _ _ Hblocks) as [Hok _].
    cbn [forallb].
    rewrite (call_ok_balance_call int16), Hread, forallb_app, Hok, Hpre.
    reflexivity.
Qed.

Lemma length_range (m : Z) : length (range m) = Z.to_nat m.
Proof. unfold range. rewrite length_fmap, length_seq. reflexivity. Qed.

(** X15: a run makes at most one call and four more for each index from 0
    to max-slot, and prints at most four lines. *)
Theorem request_bound a (n : node) :
  Z.of_nat (length (w_trace (run keccak256 int16 str_of urlopen a n).2))
    <= 1 + 4 * Z.max 0 (arg_max_slot a + 1) /\
  (length (w_out (run keccak256 int16 str_of urlopen a n).2) <= 4)%nat.
Proof.
  destruct (main_sound keccak256 int16 str_of urlopen a n)
    as (r & n' & t & o & -> & Hm).
  cbn [fst snd w_trace w_out].
  assert (Hloop : forall call_data dw r' t' o',
            loop_behaviour keccak256 int16 a call_data dw
              (range (arg_max_slot a + 1)) r' t' o' ->
            Z.of_nat (length t') <= 4 * Z.max 0 (arg_max_slot a + 1) /\
            (length o' <= 3)%nat).
  { intros call_data dw r' t' o' Hl.
    pose proof (length_range (arg_max_slot a + 1)) as Hlen.
    destruct (loop_decompose _ _ _ _ _ _ _ Hl)
      as (l1 & blocks & rest & Hblocks & -> &
          [(_ & -> & -> & ->)|(i & l2 & Hsplit & Hr & Hb)]).
    - destruct (blocks_all_ok _ _ _ _ _ Hblocks) as [_ Hb].
      rewrite app_nil_r, Hb, Hlen. cbn [length]. lia.
    - destruct (blocks_all_ok _ _ _ _ _ Hblocks) as [_ Hbl].
      rewrite Hsplit, length_app in Hlen. cbn [length] in Hlen.
      rewrite length_app, Hbl.
      destruct (probe_stop_cases _ _ _ _ _ _ _ Hb Hr)
        as [(e & _ & -> & -> & _)|[(key & _ & Hf & _ & ->)
                                  |(_ & pre & c & e & _ & _ & _ & Hle & Ho)]].
      + cbn [length]. lia.
      + destruct Hf. cbn [length]. lia.
      + destruct Ho as [-> | ->]; cbn [length]; lia. }
  inversion Hm as [e He|call_data r0 e Hcd Hread|call_data r0 before e Hcd Hread Hdw Hpr
                  |call_data r0 before dw c' t' o' Hcd Hread Hdw Hl Hpr
                  |call_data r0 before dw e t' o' Hcd Hread Hdw Hl Hpr
                  |call_data r0 before dw t' o' Hcd Hread Hdw Hl Hpr Hms
                  |call_data r0 before e Hcd Hread Hpr
                  |call_data r0 before dw e t' o' Hcd Hread Hdw Hl Hpr Hms]; subst;
    cbn [length]; try (split; lia);
    destruct (Hloop _ _ _ _ _ Hl) as [Ht Ho]; try (split; lia).
  destruct (loop_decompose _ _ _ _ _ _ _ Hl)
    as (l1 & blocks & rest & _ & _ & [(_ & _ & _ & ->)|(i & l2 & _ & Hr & _)]);
    [|congruence].
  cbn [app length]. split; lia.
Qed.

(** ** A first balance that cannot be printed *)

(** X23: when the first balance read gives an integer of more than 4300
    decimal digits, the ValueError of line 105, where the balance is
    printed outside any [try], leaves [main]: the exit status is 1, the
    first balance read is the only call of the run and nothing has been
    printed. *)
Theorem unprintable_balance_raises a (n : node) (before : Z) :
  head (balance_reads int16
          (w_trace (run keccak256 int16 str_of urlopen a n).2))
    = Some (Ok before) ->
  10 ^ int_max_str_digits <= Z.abs before ->
  (run keccak256 int16 str_of urlopen a n).1 = Raise digits_error /\
  exit_status (run keccak256 int16 str_of urlopen a n).1 = 1 /\
  (exists cd v,
     encode_balance_of keccak256 (arg_account a) = Ok cd /\
     int16 v = Ok before /\
     w_trace (run keccak256 int16 str_of urlopen a n).2
       = [balance_call a cd (Ok v)]) /\
  w_out (run keccak256 int16 str_of urlopen a n).2 = [].
Proof.
  destruct (main_sound keccak256 int16 str_of urlopen a n)
    as (r & n' & t & o & -> & Hm).
  cbn [fst snd w_trace w_out]. intros Hfirst Hbig.
  pose proof (str_int_large _ Hbig) as Hraise.
  inversion Hm as [e' Hacc|call_data r0 e' Hcd Hread
                  |call_data r0 before' e' Hcd Hread Hdw Hpr
                  |call_data r0 before' dw c' t' o' Hcd Hread Hdw Hl Hpr
                  |call_data r0 before' dw e' t' o' Hcd Hread Hdw Hl Hpr
                  |call_data r0 before' dw t' o' Hcd Hread Hdw Hl Hpr Hms
                  |call_data r0 before' e' Hcd Hread Hpr
                  |call_data r0 before' dw e' t' o' Hcd Hread Hdw Hl Hpr Hms];
    subst; try discriminate Hfirst;
    rewrite balance_reads_cons in Hfirst; cbn [head] in Hfirst;
    rewrite Hread in Hfirst; try discriminate Hfirst;
    injection Hfirst as ->; rewrite Hraise in Hpr; try discriminate Hpr.
  injection Hpr as <-.
  split; [reflexivity|]. split; [reflexivity|]. split; [|reflexivity].
  destruct r0 as [v|e0]; [|discriminate Hread].
  exists call_data, v. repeat split; assumption.
Qed.

(** ** What a run asks of the endpoint *)

Lemma probe_calls a (call_data desired_word : string) (i : Z) r t o c :
  probe_behaviour keccak256 int16 a call_data desired_word i r t o ->
  c ∈ t ->
  (exists res, c = balance_call a call_data res) \/
  (exists key res,
     storage_key_of keccak256 (arg_account a) i = Ok key /\
     (c = read_call a key res \/
      c = write_call a key (PStr desired_word) res \/
      exists old,
        c = write_call a key (PJson old) res /\
        read_call a key (Ok old) ∈ t)).
Proof.
  intros Hb Hc.
  assert (Hfound : forall t', found keccak256 int16 a call_data desired_word i t' ->
            exists key old w1 v,
              storage_key_of keccak256 (arg_account a) i = Ok key /\
              t' = [read_call a key (Ok old);
                    write_call a key (PStr desired_word) (Ok w1);
                    balance_call a call_data (Ok v)])
    by (intros t' [key old w1 v Hk _]; eauto 8).
  assert (Hrestored : forall t', restored keccak256 int16 a call_data desired_word i t' ->
            exists key old w1 v w2,
              storage_key_of keccak256 (arg_account a) i = Ok key /\
              t' = [read_call a key (Ok old);
                    write_call a key (PStr desired_word) (Ok w1);
                    balance_call a call_data (Ok v);
                    write_call a key (PJson old) (Ok w2)])
    by (intros t' [key old w1 v after w2 Hk _ _]; eauto 10).
  inversion Hb as [e ?|key e Hk|key old e Hk|key old w1 e Hk|key old w1 v e Hk Hv
                  |key t' Hk Hf|key old w1 v after e Hk Hv ?|t' Hres]; subst;
    try (destruct (Hfound _ Hf) as (key' & old & w1 & v & Hk' & ->));
    try (destruct (Hrestored _ Hres) as (key & old & w1 & v & w2 & Hk & ->));
    repeat (apply elem_of_cons in Hc as [->|Hc]);
    try (apply elem_of_nil in Hc; destruct Hc);
    first
      [ left; eexists; reflexivity
      | right; eexists _, _; split; [eassumption|]; left; reflexivity
      | right; eexists _, _; split; [eassumption|]; right; left; reflexivity
      | right; eexists _, _; split; [eassumption|]; right; right;
        eexists; split; [reflexivity|]; left ].
Qed.

Lemma loop_calls a (call_data desired_word : string) (l : list Z) r t o c :
  loop_behaviour keccak256 int16 a call_data desired_word l r t o ->
  c ∈ t ->
  (exists res, c = balance_call a call_data res) \/
  (exists i key res,
     i ∈ l /\ storage_key_of keccak256 (arg_account a) i = Ok key /\
     (c = read_call a key res \/
      c = write_call a key (PStr desired_word) res \/
      exists old,
        c = write_call a key (PJson old) res /\
        read_call a key (Ok old) ∈ t)).
Proof.
  intros Hl. revert c.
  induction Hl as [|i l r t o Hb _|i l r t1 t2 o Hres _ IH]; intros c Hc.
  - apply elem_of_nil in Hc. destruct Hc.
  - destruct (probe_calls _ _ _ _ _ _ _ _ Hb Hc)
      as [Hbal|(key & res & Hk & Hshape)]; [left; exact Hbal|].
    right. exists i, key, res. split; [left|]. split; [exact Hk|exact Hshape].
  - apply elem_of_app in Hc as [Hc|Hc].
    + destruct (probe_calls _ _ _ _ _ _ _ _
                  (pb_restored keccak256 int16 a call_data desired_word i t1 Hres) Hc)
        as [Hbal|(key & res & Hk & Hshape)]; [left; exact Hbal|].
      right. exists i, key, res. split; [left|]. split; [exact Hk|].
      destruct Hshape as [H|[H|(old & H & Hin)]]; auto.
      right. right. exists old. split; [exact H|].
      apply elem_of_app. left. exact Hin.
    + destruct (IH c Hc) as [Hbal|(j & key & res & Hj & Hk & Hshape)];
        [left; exact Hbal|].
      right. exists j, key, res. split; [right; exact Hj|]. split; [exact Hk|].
      destruct Hshape as [H|[H|(old & H & Hin)]]; auto.
      right. right. exists old. split; [exact H|].
      apply elem_of_app. right. exact Hin.
Qed.

(** X16: a run asks the endpoint for nothing but these: the balance of the
    account, always with the same call data; the storage of the token at a
    key derived from the account and an index from 0 to max-slot; a write at
    such a key of the word of the amount; a write at such a key of a word
    that a read of the same key returned earlier in the run.  Every call
    names the token of the command line. *)
Theorem only_derived_keys a (n : node) (c : call) :
  c ∈ w_trace (run keccak256 int16 str_of urlopen a n).2 ->
  (exists call_data res,
     encode_balance_of keccak256 (arg_account a) = Ok call_data /\
     c = balance_call a call_data res) \/
  (exists i key res,
     0 <= i <= arg_max_slot a /\
     storage_key_of keccak256 (arg_account a) i = Ok key /\
     (c = read_call a key res \/
      (exists desired_word,
         int_to_storage_word (arg_amount a) = Ok desired_word /\
         c = write_call a key (PStr desired_word) res) \/
      (exists old,
         c = write_call a key (PJson old) res /\
         read_call a key (Ok old)
           ∈ w_trace (run keccak256 int16 str_of urlopen a n).2))).
Proof.
  destruct (main_sound keccak256 int16 str_of urlopen a n)
    as (r & n' & t & o & -> & Hm).
  cbn [fst snd w_trace w_out]. intros Hc.
  assert (Hloop : forall call_data dw r' t' o',
            encode_balance_of keccak256 (arg_account a) = Ok call_data ->
            int_to_storage_word (arg_amount a) = Ok dw ->
            loop_behaviour keccak256 int16 a call_data dw
              (range (arg_max_slot a + 1)) r' t' o' ->
            forall first, c ∈ first :: t' ->
            c = first \/
            (exists res, c = balance_call a call_data res) \/
            (exists i key res,
               0 <= i <= arg_max_slot a /\
               storage_key_of keccak256 (arg_account a) i = Ok key /\
               (c = read_call a key res \/
                (exists desired_word,
                   int_to_storage_word (arg_amount a) = Ok desired_word /\
                   c = write_call a key (PStr desired_word) res) \/
                (exists old,
                   c = write_call a key (PJson old) res /\
                   read_call a key (Ok old) ∈ first :: t')))).
  { intros call_data dw r' t' o' Hcd Hdw Hl first [->|Hc']%elem_of_cons;
      [left; reflexivity|].
    right.
    destruct (loop_calls _ _ _ _ _ _ _ _ Hl Hc')
      as [Hbal|(i & key & res & Hi & Hk & Hshape)]; [left; exact Hbal|].
    right. exists i, key, res. apply range_bounds in Hi.
    split; [lia|]. split; [exact Hk|].
    destruct Hshape as [H|[H|(old & H & Hin)]]; eauto 8.
    right. right. exists old. split; [exact H|]. right. exact Hin. }
  inversion Hm as [e He|call_data r0 e Hcd Hread|call_data r0 before e Hcd Hread Hdw Hpr
                  |call_data r0 before dw c' t' o' Hcd Hread Hdw Hl Hpr
                  |call_data r0 before dw e t' o' Hcd Hread Hdw Hl Hpr
                  |call_data r0 before dw t' o' Hcd Hread Hdw Hl Hpr Hms
                  |call_data r0 before e Hcd Hread Hpr
                  |call_data r0 before dw e t' o' Hcd Hread Hdw Hl Hpr Hms]; subst.
  - apply elem_of_nil in Hc. destruct Hc.
  - apply list_elem_of_singleton in Hc as ->. left. eauto.
  - apply list_elem_of_singleton in Hc as ->. left. eauto.
  - destruct (Hloop _ _ _ _ _ Hcd Hdw Hl _ Hc) as [->|[[res ->]|H]]; eauto.
  - destruct (Hloop _ _ _ _ _ Hcd Hdw Hl _ Hc) as [->|[[res ->]|H]]; eauto.
  - destruct (Hloop _ _ _ _ _ Hcd Hdw Hl _ Hc) as [->|[[res ->]|H]]; eauto.
  - apply list_elem_of_singleton in Hc as ->. left. eauto.
  - destruct (Hloop _ _ _ _ _ Hcd Hdw Hl _ Hc) as [->|[[res ->]|H]]; eauto.
Qed.

(** ** One call of [rpc] *)

(** X17: [rpc] returns a value exactly when the reply is a JSON object
    without an "error" member and with a "result" member, and the value is
    that member; in every other case it raises, a "result" beside an
    "error" making no difference.  It posts one payload, of version "2.0"
    and id 1, to the URL given, and prints nothing. *)
Theorem rpc_returns_iff (rpc_url method : string) (params : list param)
    (w : @world value node) (v : value) :
  ((rpc str_of urlopen rpc_url method params w).1 = Ok v <->
   exists j,
     (urlopen (w_node w) rpc_url (Payload "2.0" 1 method params)).2
       = ReplyObject j /\
     j !! "error" = None /\ j !! "result" = Some v) /\
  (rpc str_of urlopen rpc_url method params w).2
    = World (urlopen (w_node w) rpc_url (Payload "2.0" 1 method params)).1
        (w_trace w ++ [Call method params
                         (rpc str_of urlopen rpc_url method params w).1])
        (w_out w).
Proof.
  unfold rpc.
  destruct (urlopen (w_node w) rpc_url (Payload "2.0" 1 method params))
    as [n' r] eqn:Hopen.
  cbn [fst snd]. split; [|reflexivity].
  unfold rpc_result. split.
  - destruct r as [e|j|]; try discriminate.
    destruct (j !! "error") as [err|] eqn:Herr; [discriminate|].
    destruct (j !! "result") as [v'|] eqn:Hres; [|discriminate].
    intros [= ->]. exists j. repeat split; assumption.
  - intros (j & -> & -> & ->). reflexivity.
Qed.

End Outcomes.


(** * The storage after a run *)

Section Storage.

Context {value node : Type}.
Variable keccak256 : list byte -> list byte.
Variable int16 : value -> result Z.
Variable str_of : value -> string.
Variable urlopen : node -> string -> @payload value -> node * @reply value.

Implicit Types (a : @args) (w : @world value node) (t : list (@call value))
  (c : @call value).

(** ** The calls recorded are the calls posted *)

Lemma replay_app (rpc_url : string) (n1 n2 n3 : node) t1 t2 :
  replay str_of urlopen rpc_url n1 t1 n2 ->
  replay str_of urlopen rpc_url n2 t2 n3 ->
  replay str_of urlopen rpc_url n1 (t1 ++ t2) n3.
Proof.
  induction 1 as [|n c t n' Hc _ IH]; intros H2; [exact H2|].
  cbn [app]. constructor; [exact Hc|]. apply IH, H2.
Qed.

Lemma replay_split (rpc_url : string) (n1 n3 : node) t1 t2 :
  replay str_of urlopen rpc_url n1 (t1 ++ t2) n3 ->
  exists n2,
    replay str_of urlopen rpc_url n1 t1 n2 /\
    replay str_of urlopen rpc_url n2 t2 n3.
Proof.
  revert n1. induction t1 as [|c t1 IH]; intros n1 H.
  - exists n1. split; [constructor|exact H].
  - cbn [app] in H. inversion H as [|? ? ? ? Hc Ht]; subst.
    destruct (IH _ Ht) as (n2 & H1 & H2).
    exists n2. split; [constructor; assumption|exact H2].
Qed.

Lemma continues_refl (rpc_url : string) w :
  continues str_of urlopen rpc_url w w.
Proof.
  exists []. split; [rewrite app_nil_r; reflexivity|constructor].
Qed.

Lemma continues_trans (rpc_url : string) w1 w2 w3 :
  continues str_of urlopen rpc_url w1 w2 ->
  continues str_of urlopen rpc_url w2 w3 ->
  continues str_of urlopen rpc_url w1 w3.
Proof.
  intros (t1 & Ht1 & Hr1) (t2 & Ht2 & Hr2). exists (t1 ++ t2). split.
  - rewrite Ht2, Ht1, app_assoc. reflexivity.
  - eapply replay_app; eassumption.
Qed.

Lemma faithful_ret {A} (rpc_url : string) (x : A) :
  faithful str_of urlopen rpc_url (ret x).
Proof. intros w. apply continues_refl. Qed.

Lemma faithful_lift {A} (rpc_url : string) (r : result A) :
  faithful str_of urlopen rpc_url (lift r).
Proof. intros w. apply continues_refl. Qed.

Lemma faithful_print (rpc_url : string) (line : output) :
  faithful str_of urlopen rpc_url (print line).
Proof.
  intros w. exists []. unfold print.
  destruct (format line); cbn [snd w_trace w_node];
    (split; [rewrite app_nil_r; reflexivity|constructor]).
Qed.

Lemma faithful_rpc (rpc_url method : string) (params : list param) :
  faithful str_of urlopen rpc_url (rpc str_of urlopen rpc_url method params).
Proof.
  intros w. unfold rpc.
  destruct (urlopen (w_node w) rpc_url (Payload "2.0" 1 method params))
    as [n r] eqn:Hopen.
  exists [Call method params (rpc_result str_of r)]. cbn [snd w_trace w_node].
  split; [reflexivity|].
  constructor; unfold payload_of; cbn [call_method call_params call_result];
    rewrite Hopen; [reflexivity|constructor].
Qed.

Lemma faithful_bind {A B} (rpc_url : string) (m : M A) (k : A -> M B) :
  faithful str_of urlopen rpc_url m ->
  (forall x, faithful str_of urlopen rpc_url (k x)) ->
  faithful str_of urlopen rpc_url (bind m k).
Proof.
  intros Hm Hk w. unfold bind. specialize (Hm w).
  destruct (m w) as [[x|e] w1]; [|exact Hm].
  eapply continues_trans; [exact Hm|apply Hk].
Qed.

Lemma faithful_try {A} (rpc_url : string) (m : M A) :
  faithful str_of urlopen rpc_url m ->
  faithful str_of urlopen rpc_url (try_ m).
Proof.
  intros Hm w. unfold try_. specialize (Hm w).
  destruct (m w) as [r w1]. exact Hm.
Qed.

Ltac faithful_step :=
  first
    [ apply faithful_ret | apply faithful_lift | apply faithful_print
    | apply faithful_rpc | apply faithful_try
    | apply faithful_bind; [|intros ?] ].

Lemma faithful_probe a (call_data desired_word : string) (i : Z) :
  faithful str_of urlopen (arg_rpc a)
    (probe keccak256 int16 str_of urlopen a call_data desired_word i).
Proof.
  unfold probe. repeat faithful_step.
  match goal with x : result (value * Z) |- _ => destruct x as [[old after]|e] end;
    [|repeat faithful_step].
  destruct (after =? arg_amount a); repeat faithful_step.
  match goal with x : result value |- _ => destruct x end; repeat faithful_step.
Qed.

Lemma faithful_probe_loop a (call_data desired_word : string) (l : list Z) :
  faithful str_of urlopen (arg_rpc a)
    (probe_loop keccak256 int16 str_of urlopen a call_data desired_word l).
Proof.
  induction l as [|i l IH]; cbn [probe_loop]; [apply faithful_ret|].
  apply faithful_bind; [apply faithful_probe|].
  intros [status|]; [apply faithful_ret|exact IH].
Qed.

Lemma run_replay a (n : node) :
  replay str_of urlopen (arg_rpc a) n
    (w_trace (run keccak256 int16 str_of urlopen a n).2)
    (w_node (run keccak256 int16 str_of urlopen a n).2).
Proof.
  assert (Hmain : faithful str_of urlopen (arg_rpc a)
                    (main keccak256 int16 str_of urlopen a)).
  { unfold main. repeat faithful_step.
    match goal with x : result Z |- _ => destruct x as [before|e] end;
      [|repeat faithful_step].
    apply faithful_bind; [apply faithful_print|intros _].
    apply faithful_bind; [apply faithful_lift|intros desired_word].
    apply faithful_bind; [apply faithful_probe_loop|].
    intros [status|]; repeat faithful_step. }
  destruct (Hmain (World n [] [])) as (t & Ht & Hr).
  unfold run. rewrite Ht. exact Hr.
Qed.

(** ** An endpoint that keeps storage as a store does *)

Section Store.

Variable a : @args.
Variable of_str : string -> value.
Variable view : node -> string -> value.
Hypothesis node_ok :
  storage_node str_of urlopen (arg_rpc a) (arg_token a) of_str view.

Lemma restored_frame (call_data desired_word : string) (i : Z) t
    (n n' : node) (key' : string) :
  restored keccak256 int16 a call_data desired_word i t ->
  replay str_of urlopen (arg_rpc a) n t n' ->
  view n' key' = view n key'.
Proof using node_ok.
  intros [key old ack1 v after ack2 _ _ _] Hr.
  inversion Hr as [|? ? ? ? H1 Hr1]; subst; clear Hr.
  inversion Hr1 as [|? ? ? ? H2 Hr2]; subst; clear Hr1.
  inversion Hr2 as [|? ? ? ? H3 Hr3]; subst; clear Hr2.
  inversion Hr3 as [|? ? ? ? H4 Hr4]; subst; clear Hr3.
  inversion Hr4; subst; clear Hr4.
  unfold payload_of, read_call, write_call, balance_call in *.
  cbn [call_method call_params call_result] in *.
  symmetry in H1, H2, H4.
  rewrite (sn_write _ _ _ _ _ _ node_ok _ key (PJson old) old ack2 key' eq_refl H4).
  rewrite (sn_call_frame _ _ _ _ _ _ node_ok).
  rewrite (sn_write _ _ _ _ _ _ node_ok _ key (PStr desired_word)
             (of_str desired_word) ack1 key' eq_refl H2).
  rewrite (sn_read_frame _ _ _ _ _ _ node_ok).
  destruct (decide (key' = key)) as [->|_]; [|reflexivity].
  apply (sn_read _ _ _ _ _ _ node_ok _ _ _ H1).
Qed.

Lemma blocks_frame (call_data desired_word : string) (l : list Z)
    (blocks : list (list call)) (n n' : node) (key' : string) :
  Forall2 (restored keccak256 int16 a call_data desired_word) l blocks ->
  replay str_of urlopen (arg_rpc a) n (concat blocks) n' ->
  view n' key' = view n key'.
Proof using node_ok.
  intros Hblocks. revert n.
  induction Hblocks as [|i t l blocks Hres _ IH]; intros n Hr.
  - inversion Hr; subst. reflexivity.
  - cbn [concat] in Hr. apply replay_split in Hr as (n1 & Hr1 & Hr2).
    rewrite (IH _ Hr2). eapply restored_frame; eassumption.
Qed.

Lemma found_frame (call_data desired_word key : string) (i : Z) t
    (n n' : node) (key' : string) :
  found keccak256 int16 a call_data desired_word i t ->
  storage_key_of keccak256 (arg_account a) i = Ok key ->
  replay str_of urlopen (arg_rpc a) n t n' ->
  view n' key'
  = if decide (key' = key) then of_str desired_word else view n key'.
Proof using node_ok.
  intros [key0 old ack1 v Hkey0 _] Hkey Hr.
  assert (key0 = key) as -> by congruence.
  inversion Hr as [|? ? ? ? H1 Hr1]; subst; clear Hr.
  inversion Hr1 as [|? ? ? ? H2 Hr2]; subst; clear Hr1.
  inversion Hr2 as [|? ? ? ? H3 Hr3]; subst; clear Hr2.
  inversion Hr3; subst; clear Hr3.
  unfold payload_of, read_call, write_call, balance_call in *.
  cbn [call_method call_params call_result] in *.
  symmetry in H2.
  rewrite (sn_call_frame _ _ _ _ _ _ node_ok).
  rewrite (sn_write _ _ _ _ _ _ node_ok _ key (PStr desired_word)
             (of_str desired_word) ack1 key' eq_refl H2).
  rewrite (sn_read_frame _ _ _ _ _ _ node_ok). reflexivity.
Qed.

(** X18: against an endpoint that keeps storage as a store does, a run that
    returns 1 leaves the storage of the token as it found it, at every
    key. *)
Theorem exhausted_leaves_storage (n : node) (key : string) :
  (run keccak256 int16 str_of urlopen a n).1 = Ok 1 ->
  view (w_node (run keccak256 int16 str_of urlopen a n).2) key = view n key.
Proof using node_ok.
  intros Hr.
  destruct (exhausted_shape keccak256 int16 str_of urlopen a n Hr)
    as (call_data & dw & first & before & blocks & _ & _ & Hblocks & Ht & _).
  pose proof (run_replay a n) as Hrep. rewrite Ht in Hrep.
  inversion Hrep as [|? ? ? ? _ Hrest]; subst.
  rewrite (blocks_frame _ _ _ _ _ _ key Hblocks Hrest).
  unfold payload_of, balance_call. cbn [call_method call_params].
  apply (sn_call_frame _ _ _ _ _ _ node_ok).
Qed.

(** X19: against such an endpoint, a run that returns 0 has changed the
    storage of the token at one key only, the key derived from the index it
    reports, which now holds the word of the amount; every other key holds
    what it held. *)
Theorem found_changes_one_key (n : node) :
  (run keccak256 int16 str_of urlopen a n).1 = Ok 0 ->
  exists (k : nat) (key desired_word : string),
    0 <= Z.of_nat k <= arg_max_slot a /\
    storage_key_of keccak256 (arg_account a) (Z.of_nat k) = Ok key /\
    int_to_storage_word (arg_amount a) = Ok desired_word /\
    In (out_found (Z.of_nat k))
      (w_out (run keccak256 int16 str_of urlopen a n).2) /\
    forall key',
      view (w_node (run keccak256 int16 str_of urlopen a n).2) key'
      = if decide (key' = key) then of_str desired_word else view n key'.
Proof using node_ok.
  intros Hr.
  destruct (success_shape keccak256 int16 str_of urlopen a n Hr)
    as (k & call_data & dw & key & first & before & blocks & final &
        Hk & _ & Hdw & Hkey & Hblocks & Hf & Ht & _ & Hout).
  exists k, key, dw. split; [exact Hk|]. split; [exact Hkey|].
  split; [exact Hdw|]. split; [rewrite Hout; right; left; reflexivity|].
  intros key'.
  pose proof (run_replay a n) as Hrep. rewrite Ht in Hrep.
  inversion Hrep as [|? ? ? ? _ Hrest]; subst.
  apply replay_split in Hrest as (n1 & Hr1 & Hr2).
  rewrite (found_frame _ _ _ _ _ _ _ key' Hf Hkey Hr2).
  rewrite (blocks_frame _ _ _ _ _ _ key' Hblocks Hr1).
  unfold payload_of, balance_call. cbn [call_method call_params].
  rewrite (sn_call_frame _ _ _ _ _ _ node_ok). reflexivity.
Qed.

(** ** The storage after a failure *)

Lemma failure_shape (n : node) :
  (run keccak256 int16 str_of urlopen a n).1 = Ok 2 ->
  (exists call_data r0,
     w_trace (run keccak256 int16 str_of urlopen a n).2
       = [balance_call a call_data r0]) \/
  (exists (call_data desired_word : string) (first : value) (l1 : list Z)
          (blocks : list (list call)) (i : Z) (rest : list call)
          (lines : list output),
     Forall2 (restored keccak256 int16 a call_data desired_word) l1 blocks /\
     0 <= i <= arg_max_slot a /\
     int_to_storage_word (arg_amount a) = Ok desired_word /\
     w_trace (run keccak256 int16 str_of urlopen a n).2
       = (balance_call a call_data (Ok first) :: concat blocks) ++ rest /\
     probe_behaviour keccak256 int16 a call_data desired_word i
       (Ok (Some 2)) rest lines).
Proof.
  destruct (main_sound keccak256 int16 str_of urlopen a n)
    as (r & n' & t & o & -> & Hm).
  cbn [fst snd w_trace w_out]. intros ->.
  inversion Hm as [|call_data r0 e Hcd Hread|
                  |call_data r0 before dw c' t' o' Hcd Hread Hdw Hl Hpr| | | |]; subst.
  - left. eauto.
  - right.
    destruct (loop_decompose _ _ _ _ _ _ _ _ _ Hl)
      as (l1 & blocks & rest & Hblocks & -> &
          [(Hr & _)|(i & l2 & Hsplit & Hr & Hb)]);
      [discriminate Hr|].
    destruct r0 as [first|e0]; [|discriminate Hread].
    exists call_data, dw, first, l1, blocks, i, rest, o'.
    split; [exact Hblocks|]. split; [|split; [exact Hdw|split; [reflexivity|exact Hb]]].
    assert (Hi : 0 <= i < arg_max_slot a + 1).
    { apply range_bounds. rewrite Hsplit. apply elem_of_app. right. left. }
    lia.
Qed.

(** X20: against an endpoint that keeps storage as a store does, a run that
    returns 2 because a read of the storage failed leaves the storage of the
    token as it found it, at every key. *)
Theorem failed_read_leaves_storage (n : node) (c : call) (key' : string) :
  (run keccak256 int16 str_of urlopen a n).1 = Ok 2 ->
  last (w_trace (run keccak256 int16 str_of urlopen a n).2) = Some c ->
  call_method c = "eth_getStorageAt" ->
  view (w_node (run keccak256 int16 str_of urlopen a n).2) key' = view n key'.
Proof using node_ok.
  intros Hr Hlast Hmethod.
  pose proof (run_replay a n) as Hrep.
  destruct (failure_shape n Hr)
    as [(call_data & r0 & Ht)
       |(call_data & dw & first & l1 & blocks & i & rest & lines &
         Hblocks & _ & _ & Ht & Hb)];
    rewrite Ht in Hlast, Hrep.
  { injection Hlast as <-. discriminate Hmethod. }
  apply replay_split in Hrep as (n1 & Hr1 & Hr2).
  assert (Hn1 : view n1 key' = view n key').
  { inversion Hr1 as [|? ? ? ? _ Hrest]; subst.
    rewrite (blocks_frame _ _ _ _ _ _ key' Hblocks Hrest).
    unfold payload_of, balance_call. cbn [call_method call_params].
    apply (sn_call_frame _ _ _ _ _ _ node_ok). }
  rewrite last_app in Hlast.
  inversion Hb as [|key e Hkey|key old e Hkey|key old ack1 e Hkey
                  |key old ack1 v e Hkey Hv|key t' Hkey Hf
                  |key old ack1 v after e Hkey Hv Hne|]; subst;
    cbn in Hlast; injection Hlast as <-; try discriminate Hmethod.
  inversion Hr2 as [|? ? ? ? _ Hend]; subst. inversion Hend; subst.
  unfold payload_of, read_call. cbn [call_method call_params].
  rewrite (sn_read_frame _ _ _ _ _ _ node_ok). exact Hn1.
Qed.

(** X21: against such an endpoint, a run that returns 2 because the balance
    read that checks a write failed does not restore: the key derived from
    the index being probed holds the word of the amount, and every other key
    holds what it held. *)
Theorem failed_check_leaves_word (n : node) (c : call) :
  (run keccak256 int16 str_of urlopen a n).1 = Ok 2 ->
  last (w_trace (run keccak256 int16 str_of urlopen a n).2) = Some c ->
  call_method c = "eth_call" ->
  (1 < length (w_trace (run keccak256 int16 str_of urlopen a n).2))%nat ->
  exists (i : Z) (key desired_word : string),
    0 <= i <= arg_max_slot a /\
    storage_key_of keccak256 (arg_account a) i = Ok key /\
    int_to_storage_word (arg_amount a) = Ok desired_word /\
    forall key',
      view (w_node (run keccak256 int16 str_of urlopen a n).2) key'
      = if decide (key' = key) then of_str desired_word else view n key'.
Proof using node_ok.
  intros Hr Hlast Hmethod Hlen.
  pose proof (run_replay a n) as Hrep.
  destruct (failure_shape n Hr)
    as [(call_data & r0 & Ht)
       |(call_data & dw & first & l1 & blocks & i & rest & lines &
         Hblocks & Hi & Hdw & Ht & Hb)];
    rewrite Ht in Hlast, Hrep, Hlen.
  { cbn in Hlen. lia. }
  apply replay_split in Hrep as (n1 & Hr1 & Hr2).
  assert (Hn1 : forall key', view n1 key' = view n key').
  { intros key'. inversion Hr1 as [|? ? ? ? _ Hrest]; subst.
    rewrite (blocks_frame _ _ _ _ _ _ key' Hblocks Hrest).
    unfold payload_of, balance_call. cbn [call_method call_params].
    apply (sn_call_frame _ _ _ _ _ _ node_ok). }
  rewrite last_app in Hlast.
  assert (Hcheck : forall key old ack1 res,
            storage_key_of keccak256 (arg_account a) i = Ok key ->
            rest = [read_call a key (Ok old);
                    write_call a key (PStr dw) (Ok ack1);
                    balance_call a call_data res] ->
            exists (i : Z) (key desired_word : string),
              0 <= i <= arg_max_slot a /\
              storage_key_of keccak256 (arg_account a) i = Ok key /\
              int_to_storage_word (arg_amount a) = Ok desired_word /\
              forall key',
                view (w_node (run keccak256 int16 str_of urlopen a n).2) key'
                = if decide (key' = key) then of_str desired_word
                  else view n key').
  { intros key old ack1 res Hkey ->. exists i, key, dw.
    split; [exact Hi|]. split; [exact Hkey|]. split; [exact Hdw|].
    intros key'.
    inversion Hr2 as [|? ? ? ? H1 Hr3]; subst; clear Hr2.
    inversion Hr3 as [|? ? ? ? H2 Hr4]; subst; clear Hr3.
    inversion Hr4 as [|? ? ? ? H3 Hr5]; subst; clear Hr4.
    inversion Hr5; subst; clear Hr5.
    unfold payload_of, read_call, write_call, balance_call in *.
    cbn [call_method call_params call_result] in *.
    symmetry in H2.
    rewrite (sn_call_frame _ _ _ _ _ _ node_ok).
    rewrite (sn_write _ _ _ _ _ _ node_ok _ key (PStr dw) (of_str dw) ack1
               key' eq_refl H2).
    rewrite (sn_read_frame _ _ _ _ _ _ node_ok), Hn1. reflexivity. }
  inversion Hb as [|key e Hkey|key old e Hkey|key old ack1 e Hkey
                  |key old ack1 v e Hkey Hv|key t' Hkey Hf
                  |key old ack1 v after e Hkey Hv Hne|]; subst;
    cbn in Hlast; injection Hlast as <-; try discriminate Hmethod;
    eapply Hcheck; eauto.
Qed.

End Store.

End Storage.

(** ** The development node keeps storage as a store does *)

Lemma mock_reply_result (v : string) :
  rpc_result Mock.str_of (ReplyObject {[ "result" := v ]}) = Ok v.
Proof.
  unfold rpc_result.
  rewrite lookup_singleton_ne by discriminate.
  rewrite lookup_singleton_eq. reflexivity.
Qed.

Lemma mock_reply_error (msg : string) :
  rpc_result Mock.str_of (ReplyObject {[ "error" := msg ]})
  = Raise (RuntimeError ("rpc error: " +:+ msg)).
Proof.
  unfold rpc_result. rewrite lookup_singleton_eq. reflexivity.
Qed.

Lemma mock_storage_node (url token : string) :
  storage_node Mock.str_of Mock.urlopen url token (fun s => s) Mock.word_at.
Proof.
  split.
  - intros n key old. unfold Mock.urlopen.
    destruct (Mock.answers n); cbn [snd method params].
    + rewrite mock_reply_error. discriminate.
    + rewrite mock_reply_result. congruence.
  - intros n key key'. unfold Mock.urlopen.
    destruct (Mock.answers n); reflexivity.
  - intros n data key'. unfold Mock.urlopen.
    destruct (Mock.answers n); reflexivity.
  - intros n key p word ack key' Hword. unfold Mock.urlopen.
    destruct (Mock.answers n); cbn [snd fst method params].
    + rewrite mock_reply_error. discriminate.
    + destruct p as [s|v|to data]; cbn [word_of] in Hword;
        [| |discriminate Hword]; injection Hword as <-; intros _;
        unfold Mock.word_at; cbn [Mock.storage fst];
        (destruct (decide (key' = key)) as [->|Hne];
         [rewrite lookup_insert_eq|rewrite lookup_insert_ne by congruence];
         reflexivity).
Qed.

(** ** Instances of the further theorems *)

Lemma negative_inputs_rejected_witness :
  int_to_bytes32 (-1) = Raise (ValueError "slot index must be non-negative") /\
  (Mock.run (Args Mock.url Mock.token Mock.account (-1) 5)
     (Mock.node_with_slot 3 100)).1
    = Raise (ValueError "amount must be non-negative") /\
  (length (w_trace (Mock.run (Args Mock.url Mock.token Mock.account 1000 (-1))
                      (Mock.node_with_slot 3 100)).2) <= 1)%nat /\
  exists cd v before,
    encode_balance_of Mock.digest Mock.account = Ok cd /\
    Mock.int16 v = Ok before /\
    str_int before = Ok tt /\
    w_trace (Mock.run (Args Mock.url Mock.token Mock.account (-1) 5)
               (Mock.node_with_slot 3 100)).2
      = [balance_call (Args Mock.url Mock.token Mock.account (-1) 5) cd (Ok v)] /\
    w_out (Mock.run (Args Mock.url Mock.token Mock.account (-1) 5)
             (Mock.node_with_slot 3 100)).2
      = [out_before before].
Proof.
  destruct (negative_inputs_rejected Mock.digest Mock.int16 Mock.str_of
              Mock.urlopen (Args Mock.url Mock.token Mock.account (-1) 5)
              (Mock.node_with_slot 3 100) (-1))
    as (Hindex & _ & _ & Hamount).
  destruct (negative_inputs_rejected Mock.digest Mock.int16 Mock.str_of
              Mock.urlopen (Args Mock.url Mock.token Mock.account 1000 (-1))
              (Mock.node_with_slot 3 100) (-1))
    as (_ & _ & Hbound & _).
  destruct Hamount as (_ & _ & _ & Hafter & Hrun); [simpl; lia|].
  destruct Hbound as (Hlen & _); [simpl; lia|].
  split; [apply Hindex; lia|].
  assert (Hr : (Mock.run (Args Mock.url Mock.token Mock.account (-1) 5)
                  (Mock.node_with_slot 3 100)).1
               = Raise (ValueError "amount must be non-negative")).
  { apply (Hrun 0); vm_compute; reflexivity. }
  split; [exact Hr|]. split; [exact Hlen|]. exact (Hafter Hr).
Defined.

(** A negative amount is refused only after a request has gone out: the run
    has made the first balance read when the encoder raises. *)
Lemma negative_amount_after_first_read :
  let r := Mock.run (Args Mock.url Mock.token Mock.account (-1) 5)
             (Mock.node_with_slot 3 100) in
  r.1 = Raise (ValueError "amount must be non-negative") /\
  w_trace r.2
    = [Call "eth_call"
         [PCall Mock.token
            "0x00000000000000000000000000000000f39fd6e51aad88f6f4ce6ab8827279cfffb92266";
          PStr "latest"]
         (Ok Mock.zero_word)].
Proof. vm_compute. split; reflexivity. Qed.

Lemma oversized_amount_raises_witness :
  (Mock.run (Args Mock.url Mock.token Mock.account (2 ^ 256) 5)
     (Mock.node_with_slot 3 100)).1
    = Raise (OverflowError "int too big to convert") /\
  Forall (fun c => is_write c = false)
    (w_trace (Mock.run (Args Mock.url Mock.token Mock.account (2 ^ 256) 5)
                (Mock.node_with_slot 3 100)).2) /\
  exists cd v before,
    encode_balance_of Mock.digest Mock.account = Ok cd /\
    Mock.int16 v = Ok before /\
    str_int before = Ok tt /\
    w_trace (Mock.run (Args Mock.url Mock.token Mock.account (2 ^ 256) 5)
               (Mock.node_with_slot 3 100)).2
      = [balance_call (Args Mock.url Mock.token Mock.account (2 ^ 256) 5)
           cd (Ok v)] /\
    w_out (Mock.run (Args Mock.url Mock.token Mock.account (2 ^ 256) 5)
             (Mock.node_with_slot 3 100)).2
      = [out_before before].
Proof.
  destruct (oversized_amount_raises Mock.digest Mock.int16 Mock.str_of
              Mock.urlopen (Args Mock.url Mock.token Mock.account (2 ^ 256) 5)
              (Mock.node_with_slot 3 100))
    as (_ & Hw & Hafter & Hrun).
  - simpl. lia.
  - destruct (Hrun 0) as [Hr _]; [vm_compute; reflexivity..|].
    split; [exact Hr|]. split; [exact Hw|]. exact (Hafter Hr).
Defined.

Lemma unprintable_balance_raises_witness :
  (Mock.run Mock.scenario (Mock.node_with_balance Mock.long_word 100)).1
    = Raise digits_error /\
  length (w_trace (Mock.run Mock.scenario
                     (Mock.node_with_balance Mock.long_word 100)).2) = 1%nat /\
  w_out (Mock.run Mock.scenario (Mock.node_with_balance Mock.long_word 100)).2
    = [].
Proof.
  destruct (unprintable_balance_raises Mock.digest Mock.int16 Mock.str_of
              Mock.urlopen Mock.scenario
              (Mock.node_with_balance Mock.long_word 100)
              (from_bytes (replicate 1800 Byte.xff)))
    as (Hr & _ & (cd & v & _ & _ & Ht) & Ho).
  - vm_compute. reflexivity.
  - apply Z.leb_le. vm_compute. reflexivity.
  - split; [exact Hr|]. split; [|exact Ho].
    unfold Mock.run. rewrite Ht. reflexivity.
Defined.

Lemma success_is_verified_witness :
  exists k : nat,
    0 <= Z.of_nat k <= 5 /\
    In (out_found (Z.of_nat k))
      (w_out (Mock.run Mock.scenario (Mock.node_with_slot 3 100)).2).
Proof.
  destruct (success_is_verified Mock.digest Mock.int16 Mock.str_of Mock.urlopen
              Mock.scenario (Mock.node_with_slot 3 100))
    as (k & cd & dw & key & first & before & blocks & final &
        Hk & _ & _ & _ & _ & _ & _ & _ & Hout).
  - vm_compute. reflexivity.
  - exists k. split; [exact Hk|].
    unfold Mock.run. rewrite Hout. right. left. reflexivity.
Defined.

Lemma exhaustion_is_complete_witness :
  exists blocks : list (list (@call string)),
    length (w_trace (Mock.run Mock.scenario (Mock.node_with_slot 9 100)).2)
    = S (length (concat blocks)).
Proof.
  destruct (exhaustion_is_complete Mock.digest Mock.int16 Mock.str_of
              Mock.urlopen Mock.scenario (Mock.node_with_slot 9 100))
    as (cd & dw & first & before & blocks & _ & _ & _ & Ht & _).
  - vm_compute. reflexivity.
  - exists blocks. unfold Mock.run. rewrite Ht. reflexivity.
Defined.

Lemma failure_status_has_cause_witness :
  exists (pre : list (@call string)) (c : @call string),
    w_trace (Mock.run Mock.scenario (Mock.node_with_slot 3 2)).2 = pre ++ [c] /\
    forallb (call_ok Mock.int16) pre = true /\
    call_ok Mock.int16 c = false.
Proof.
  apply (failure_status_has_cause Mock.digest Mock.int16 Mock.str_of
           Mock.urlopen Mock.scenario (Mock.node_with_slot 3 2)).
  vm_compute. reflexivity.
Defined.

Lemma only_derived_keys_witness :
  exists (i : Z) (key : string),
    0 <= i <= 5 /\
    storage_key_of Mock.digest Mock.account i = Ok key /\
    key = Mock.key 1.
Proof.
  destruct (only_derived_keys Mock.digest Mock.int16 Mock.str_of Mock.urlopen
              Mock.scenario (Mock.node_with_slot 3 100)
              (read_call Mock.scenario (Mock.key 1) (Ok Mock.zero_word)))
    as [(cd & res & _ & Hc)|(i & key & res & Hi & Hkey & Hc)].
  - apply list_elem_of_In. vm_compute. do 5 right. left. reflexivity.
  - discriminate Hc.
  - exists i, key. split; [exact Hi|]. split; [exact Hkey|].
    destruct Hc as [Hc|[(dw & _ & Hc)|(old & Hc & _)]];
      try discriminate Hc.
    injection Hc as Hc. symmetry. exact Hc.
Defined.

Lemma exhausted_leaves_storage_witness :
  Mock.word_at (w_node (Mock.run Mock.scenario (Mock.node_with_slot 9 100)).2)
    (Mock.key 2)
  = Mock.word_at (Mock.node_with_slot 9 100) (Mock.key 2).
Proof.
  apply (exhausted_leaves_storage Mock.digest Mock.int16 Mock.str_of
           Mock.urlopen Mock.scenario (fun s => s) Mock.word_at
           (mock_storage_node _ _) (Mock.node_with_slot 9 100) (Mock.key 2)).
  vm_compute. reflexivity.
Defined.

Lemma found_changes_one_key_witness :
  exists (k : nat) (key desired_word : string),
    0 <= Z.of_nat k <= 5 /\
    storage_key_of Mock.digest Mock.account (Z.of_nat k) = Ok key /\
    int_to_storage_word 1000 = Ok desired_word /\
    In (out_found (Z.of_nat k))
      (w_out (Mock.run Mock.scenario (Mock.node_with_slot 3 100)).2) /\
    forall key',
      Mock.word_at
        (w_node (Mock.run Mock.scenario (Mock.node_with_slot 3 100)).2) key'
      = if decide (key' = key) then desired_word
        else Mock.word_at (Mock.node_with_slot 3 100) key'.
Proof.
  apply (found_changes_one_key Mock.digest Mock.int16 Mock.str_of
           Mock.urlopen Mock.scenario (fun s => s) Mock.word_at
           (mock_storage_node _ _) (Mock.node_with_slot 3 100)).
  vm_compute. reflexivity.
Defined.

Lemma failed_read_leaves_storage_witness :
  Mock.word_at (w_node (Mock.run Mock.scenario (Mock.node_with_slot 3 1)).2)
    (Mock.key 0)
  = Mock.word_at (Mock.node_with_slot 3 1) (Mock.key 0).
Proof.
  eapply (failed_read_leaves_storage Mock.digest Mock.int16 Mock.str_of
            Mock.urlopen Mock.scenario (fun s => s) Mock.word_at
            (mock_storage_node _ _) (Mock.node_with_slot 3 1) _ (Mock.key 0)).
  - vm_compute. reflexivity.
  - vm_compute. reflexivity.
  - reflexivity.
Defined.

Lemma failed_check_leaves_word_witness :
  exists (i : Z) (key desired_word : string),
    0 <= i <= 5 /\
    storage_key_of Mock.digest Mock.account i = Ok key /\
    int_to_storage_word 1000 = Ok desired_word /\
    forall key',
      Mock.word_at
        (w_node (Mock.run Mock.scenario (Mock.node_with_slot 3 3)).2) key'
      = if decide (key' = key) then desired_word
        else Mock.word_at (Mock.node_with_slot 3 3) key'.
Proof.
  eapply (failed_check_leaves_word Mock.digest Mock.int16 Mock.str_of
            Mock.urlopen Mock.scenario (fun s => s) Mock.word_at
            (mock_storage_node _ _) (Mock.node_with_slot 3 3)).
  - vm_compute. reflexivity.
  - vm_compute. reflexivity.
  - reflexivity.
  - vm_compute. lia.
Defined.

(** * White space around an address *)

Lemma lstrip_spaces (ws : string) :
  all_chars is_py_space ws = true -> lstrip ws = "".
Proof.
  induction ws as [|c ws IH]; [reflexivity|]. cbn [all_chars lstrip].
  intros [-> Hws]%andb_prop. exact (IH Hws).
Qed.

Lemma rstrip_spaces (ws : string) :
  all_chars is_py_space ws = true -> rstrip ws = "".
Proof.
  induction ws as [|c ws IH]; [reflexivity|]. cbn [all_chars rstrip].
  intros [-> Hws]%andb_prop. rewrite (IH Hws). reflexivity.
Qed.

Lemma lstrip_app_spaces (ws s : string) :
  all_chars is_py_space ws = true -> lstrip (ws +:+ s) = lstrip s.
Proof.
  induction ws as [|c ws IH]; [reflexivity|]. cbn [all_chars].
  intros [Hc Hws]%andb_prop.
  change (String c ws +:+ s) with (String c (ws +:+ s)).
  cbn [lstrip]. rewrite Hc. exact (IH Hws).
Qed.

Lemma rstrip_app_spaces (s ws : string) :
  all_chars is_py_space ws = true -> rstrip (s +:+ ws) = rstrip s.
Proof.
  intros Hws. induction s as [|c s IH]; [exact (rstrip_spaces ws Hws)|].
  change (String c s +:+ ws) with (String c (s +:+ ws)).
  cbn [rstrip]. rewrite IH. reflexivity.
Qed.

Lemma strip_app_spaces (s ws : string) :
  all_chars is_py_space ws = true -> strip (s +:+ ws) = strip s.
Proof.
  intros Hws. unfold strip. induction s as [|c s IH].
  - change ("" +:+ ws) with ws. rewrite (lstrip_spaces ws Hws). reflexivity.
  - change (String c s +:+ ws) with (String c (s +:+ ws)).
    cbn [lstrip]. destruct (is_py_space c); [exact IH|].
    exact (rstrip_app_spaces (String c s) ws Hws).
Qed.

(** X22: white space before and after an address does not count: with any
    characters that [str.strip] removes put before and after a text, the
    text decodes alike and is the same address or the same refusal. *)
Theorem surrounding_space_ignored (before s after : string) :
  all_chars is_py_space before = true ->
  all_chars is_py_space after = true ->
  hex_to_bytes (before +:+ s +:+ after) = hex_to_bytes s /\
  addr_to_bytes32 (before +:+ s +:+ after) = addr_to_bytes32 s.
Proof.
  intros Hb Ha.
  assert (Hstrip : strip (before +:+ s +:+ after) = strip s).
  { unfold strip. rewrite (lstrip_app_spaces before (s +:+ after) Hb).
    exact (strip_app_spaces s after Ha). }
  assert (Hdec : hex_to_bytes (before +:+ s +:+ after) = hex_to_bytes s).
  { rewrite !hex_to_bytes_unfold. unfold hex_digits_of. rewrite Hstrip.
    reflexivity. }
  split; [exact Hdec|]. unfold addr_to_bytes32. rewrite Hdec. reflexivity.
Qed.

Lemma surrounding_space_ignored_witness :
  hex_to_bytes (" " +:+ Mock.account +:+ "  ") = hex_to_bytes Mock.account /\
  addr_to_bytes32 (" " +:+ Mock.account +:+ "  ") = addr_to_bytes32 Mock.account.
Proof.
  apply (surrounding_space_ignored " " Mock.account "  "); reflexivity.
Defined.
